(** * Caret edge detection and placement (block-controls/index.js)

    A shallow embedding of the four exported caret utilities
    [isHorizontalEdge], [getVerticalEdge], [placeCaretAtHorizontalEdge] and
    [placeCaretAtVerticalEdge], together with the private polyfill
    [caretRangeFromPoint], over an explicit model of the parts of the
    browser they talk to: the document tree, the selection, text-control
    selections, focus, inline z-index and the scroll position.

    How the browser is modelled:
    - nodes are positions in an immutable tree (the code never changes the
      tree), so [parentNode] chains are finite by construction;
    - layout is a parameter ([Platform]): bounding and client rectangles
      are functions of the scroll position, point resolution of the scroll
      position and the inline z-indices;
    - pixel coordinates are exact rationals;
    - reading a property of [null] throws a [TypeError]; nothing else
      throws. *)

From Stdlib Require Import QArith Lqa Ascii String List.
From stdpp Require Import gmap strings.
Import ListNotations.

Local Open Scope string_scope.
Local Open Scope nat_scope.

(** ** The document tree *)

(** A node is named by its position in the tree: the empty list is the
    document, and [i :: p] is child number [i] of node [p].  Identity of
    nodes ([===] on DOM objects) is equality of these names, and
    [parentNode] drops the head. *)
Definition NodeId := list nat.

Record Element := {
  el_tagName : string;
  el_isContentEditable : bool;
  el_value : string
}.

Inductive NodeKind :=
| DocumentNode
| ElementNode (el : Element)
| TextNode (data : string).

#[warnings="-register-all"]
Inductive Dom := Node (kind : NodeKind) (childNodes : list Dom).

Definition kidsOf (d : Dom) : list Dom := let 'Node _ ks := d in ks.

(** [descend d path] follows child indices from the root downwards. *)
Fixpoint descend (d : Dom) (path : list nat) : option Dom :=
  match path with
  | [] => Some d
  | i :: rest =>
      match nth_error (kidsOf d) i with
      | Some k => descend k rest
      | None => None
      end
  end.

Definition nodeAt (d : Dom) (n : NodeId) : option Dom := descend d (rev n).

Definition parentNode (n : NodeId) : option NodeId :=
  match n with
  | [] => None
  | _ :: p => Some p
  end.

Definition firstChild (d : Dom) (n : NodeId) : option NodeId :=
  match nodeAt d n with
  | Some (Node _ (_ :: _)) => Some (0 :: n)
  | _ => None
  end.

Definition lastChild (d : Dom) (n : NodeId) : option NodeId :=
  match nodeAt d n with
  | Some (Node _ (k :: ks)) => Some (List.length ks :: n)
  | _ => None
  end.

(** The text of a subtree: the data of a text node, the concatenation of
    the children's text for an element. *)
Fixpoint textOf (d : Dom) : string :=
  match d with
  | Node (TextNode s) _ => s
  | Node _ ks => String.concat "" (map textOf ks)
  end.

(** [node.textContent]: [null] on a document, a string elsewhere. *)
Definition textContentOf (d : Dom) (n : NodeId) : option string :=
  match nodeAt d n with
  | Some (Node DocumentNode _) => None
  | Some t => Some (textOf t)
  | None => None
  end.

(** The DOM's node length: number of children, or of characters for text. *)
Definition nodeLength (d : Dom) (n : NodeId) : nat :=
  match nodeAt d n with
  | Some (Node (TextNode s) _) => String.length s
  | Some (Node _ ks) => List.length ks
  | None => 0
  end.

Definition elementAt (d : Dom) (n : NodeId) : option Element :=
  match nodeAt d n with
  | Some (Node (ElementNode el) _) => Some el
  | _ => None
  end.

(** [element.isContentEditable]; not a property of other nodes. *)
Definition editable (d : Dom) (n : NodeId) : bool :=
  from_option el_isContentEditable false (elementAt d n).

(** [Node.ELEMENT_NODE] is 1, [TEXT_NODE] 3, [DOCUMENT_NODE] 9. *)
Definition ELEMENT_NODE : nat := 1.

Definition nodeTypeOf (d : Dom) (n : NodeId) : option nat :=
  match nodeAt d n with
  | Some (Node DocumentNode _) => Some 9
  | Some (Node (ElementNode _) _) => Some 1
  | Some (Node (TextNode _) _) => Some 3
  | None => None
  end.

(** [a.contains(b)]: [b] is [a] or one of its descendants. *)
Fixpoint contains (a b : NodeId) : bool :=
  if bool_decide (b = a) then true
  else match b with
       | [] => false
       | _ :: p => contains a p
       end.

(** ** Ranges, rectangles and caret positions *)

Record Range := {
  startContainer : NodeId;
  startOffset : nat;
  endContainer : NodeId;
  endOffset : nat
}.

Definition collapsed (r : Range) : bool :=
  bool_decide (startContainer r = endContainer r) && (startOffset r =? endOffset r).

(** Coordinates are CSS pixels; the model takes them as exact rationals. *)
Record DOMRect := {
  r_left : Q;
  r_top : Q;
  r_bottom : Q;
  r_width : Q;
  r_height : Q
}.

Record CaretPosition := {
  offsetNode : NodeId;
  offset : nat
}.

(** The result object of [getVerticalEdge]; an absent [rect] key is [None]. *)
Record EdgeInfo := {
  isEdge : bool;
  rect : option DOMRect
}.

Definition Qgtb (a b : Q) : bool := negb (Qle_bool a b).
Definition Qltb (a b : Q) : bool := negb (Qle_bool b a).

(** ** The browser *)

(** What the code asks of the rendering engine.  Geometry depends on the
    scroll position only; hit testing also on the inline z-indices, which
    is why the code raises the container's before resolving a point.  A
    method the browser does not have is [None]. *)
Record Platform := {
  viewport : Type;
  scrollIntoView : viewport -> NodeId -> bool -> viewport;
  getBoundingClientRect : viewport -> NodeId -> DOMRect;
  getClientRects : viewport -> Range -> list DOMRect;
  doc_caretRangeFromPoint :
    option (viewport -> gmap NodeId string -> Q -> Q -> option CaretPosition);
  doc_caretPositionFromPoint :
    option (viewport -> gmap NodeId string -> Q -> Q -> option CaretPosition)
}.

Inductive JSError := TypeError.

Section Caret.

Context (P : Platform).

Record World := {
  document : Dom;
  selection : list Range;
  textSelection : gmap NodeId (nat * nat);
  activeElement : option NodeId;
  zIndex : gmap NodeId string;
  view : viewport P
}.

(** *** State and exceptions *)

(** A call returns a value, throws, or (an artefact of the embedding, for
    the one recursive function) uses up the call depth it was given. *)
Inductive Outcome (A : Type) :=
| Returns (a : A) (w : World)
| Throws (e : JSError) (w : World)
| OutOfDepth.

Arguments Returns {A} a w.
Arguments Throws {A} e w.
Arguments OutOfDepth {A}.

Definition JS (A : Type) : Type := World -> Outcome A.

Definition ret {A} (a : A) : JS A := fun w => Returns a w.

Definition bind {A B} (m : JS A) (k : A -> JS B) : JS B :=
  fun w =>
    match m w with
    | Returns a w' => k a w'
    | Throws e w' => Throws e w'
    | OutOfDepth => OutOfDepth
    end.

Definition throw {A} (e : JSError) : JS A := fun w => Throws e w.

Definition gets {A} (f : World -> A) : JS A := fun w => Returns (f w) w.

Definition modify (f : World -> World) : JS unit := fun w => Returns tt (f w).

Notation "'let*' x ':=' m 'in' k" := (bind m (fun x => k))
  (at level 10, x name, m at level 100, k at level 200, only parsing).

(** Reading a property of [null] or [undefined] throws. *)
Definition deref {A} (o : option A) : JS A :=
  match o with
  | Some a => ret a
  | None => throw TypeError
  end.

(** *** Property reads *)

Definition tagName (n : NodeId) : JS (option string) :=
  gets (fun w => el_tagName <$> elementAt (document w) n).

Definition isContentEditable (n : NodeId) : JS bool :=
  gets (fun w => editable (document w) n).

Definition value (n : NodeId) : JS (option string) :=
  gets (fun w => el_value <$> elementAt (document w) n).

Definition selectionOf (w : World) (n : NodeId) : nat * nat :=
  default (0, 0) (textSelection w !! n).

Definition selectionStart (n : NodeId) : JS nat :=
  gets (fun w => fst (selectionOf w n)).

Definition selectionEnd (n : NodeId) : JS nat :=
  gets (fun w => snd (selectionOf w n)).

Definition textContent (n : NodeId) : JS (option string) :=
  gets (fun w => textContentOf (document w) n).

Definition nodeType (n : NodeId) : JS (option nat) :=
  gets (fun w => nodeTypeOf (document w) n).

(** [parentNode[ `${ order }Child` ]]. *)
Definition orderChild (isReverse : bool) (n : NodeId) : JS (option NodeId) :=
  gets (fun w => if isReverse then firstChild (document w) n
                 else lastChild (document w) n).

(** [includes( [ 'INPUT', 'TEXTAREA' ], container.tagName )]. *)
Definition includes (l : list string) (x : option string) : bool :=
  match x with
  | Some s => existsb (String.eqb s) l
  | None => false
  end.

(** [selection.rangeCount ? selection.getRangeAt( 0 ) : null]. *)
Definition firstRange : JS (option Range) :=
  gets (fun w => match selection w with
                 | [] => None
                 | r :: _ => Some r
                 end).

(** *** isHorizontalEdge *)

(** The [while ( node !== container )] loop.  It ends because every turn
    moves to the parent; at the document the parent is [null] and reading
    its child throws. *)
Fixpoint climb (isReverse : bool) (container node : NodeId) : JS bool :=
  if bool_decide (node = container) then ret true
  else match node with
       | [] => throw TypeError
       | _ :: parent =>
           let* child := orderChild isReverse parent in
           if negb (bool_decide (child = Some node)) then ret false
           else climb isReverse container parent
       end.

Definition isHorizontalEdge (container : NodeId) (isReverse : bool) : JS bool :=
  let* tag := tagName container in
  if includes ["INPUT"; "TEXTAREA"] tag then
    let* s := selectionStart container in
    let* e := selectionEnd container in
    if negb (s =? e) then ret false
    else if isReverse then ret (s =? 0)
    else
      let* v := value container in
      let* v := deref v in
      ret (String.length v =? s)
  else
    let* isEditable := isContentEditable container in
    if negb isEditable then ret true
    else
      let* range := firstRange in
      match range with
      | None => ret false
      | Some range =>
          if negb (collapsed range) then ret false
          else
            let offset := if isReverse then startOffset range else endOffset range in
            let node := startContainer range in
            if isReverse && negb (offset =? 0) then ret false
            else
              let* short :=
                (if negb isReverse then
                   let* text := textContent node in
                   let* text := deref text in
                   ret (negb (offset =? String.length text))
                 else ret false) in
              if (short : bool) then ret false
              else climb isReverse container node
      end.

(** *** getVerticalEdge *)

Definition boundingClientRect (n : NodeId) : JS DOMRect :=
  gets (fun w => getBoundingClientRect P (view w) n).

Definition clientRects (r : Range) : JS (list DOMRect) :=
  gets (fun w => getClientRects P (view w) r).

Definition noEdge : EdgeInfo := {| isEdge := false; rect := None |}.

Definition getVerticalEdge (container : NodeId) (isReverse : bool) : JS EdgeInfo :=
  let* tag := tagName container in
  if includes ["INPUT"; "TEXTAREA"] tag then
    let* e := isHorizontalEdge container isReverse in
    ret {| isEdge := e; rect := None |}
  else
    let* isEditable := isContentEditable container in
    if negb isEditable then ret {| isEdge := true; rect := None |}
    else
      let* range := firstRange in
      match range with
      | None => ret noEdge
      | Some range =>
          if negb (collapsed range) then ret noEdge
          else
            let* ty := nodeType (startContainer range) in
            let* rangeRect :=
              (if bool_decide (ty = Some ELEMENT_NODE) then
                 let* r := boundingClientRect (startContainer range) in
                 ret (Some r)
               else
                 let* rs := clientRects range in
                 ret (head rs)) in
            match rangeRect with
            | None => ret noEdge
            | Some rangeRect =>
                let buffer := (r_height rangeRect / 2)%Q in
                let* editableRect := boundingClientRect container in
                if isReverse && Qgtb (r_top rangeRect - buffer) (r_top editableRect) then
                  ret {| isEdge := false; rect := Some rangeRect |}
                else if negb isReverse
                        && Qltb (r_bottom rangeRect + buffer) (r_bottom editableRect) then
                  ret {| isEdge := false; rect := Some rangeRect |}
                else
                  ret {| isEdge := true; rect := Some rangeRect |}
            end
      end.

(** *** Mutators of the browser state *)

Definition set_selection (s : list Range) (w : World) : World :=
  {| document := document w; selection := s; textSelection := textSelection w;
     activeElement := activeElement w; zIndex := zIndex w; view := view w |}.

Definition set_textSelection (t : gmap NodeId (nat * nat)) (w : World) : World :=
  {| document := document w; selection := selection w; textSelection := t;
     activeElement := activeElement w; zIndex := zIndex w; view := view w |}.

Definition set_activeElement (a : option NodeId) (w : World) : World :=
  {| document := document w; selection := selection w; textSelection := textSelection w;
     activeElement := a; zIndex := zIndex w; view := view w |}.

Definition set_zIndex (z : gmap NodeId string) (w : World) : World :=
  {| document := document w; selection := selection w; textSelection := textSelection w;
     activeElement := activeElement w; zIndex := z; view := view w |}.

Definition set_view (v : viewport P) (w : World) : World :=
  {| document := document w; selection := selection w; textSelection := textSelection w;
     activeElement := activeElement w; zIndex := zIndex w; view := v |}.

(** [container.focus()]: the container becomes the active element.  What
    the browser or the focus handlers of the page do on top of that, to
    the document's selection in particular, is outside the model. *)
Definition focus (n : NodeId) : JS unit :=
  modify (set_activeElement (Some n)).

(** [container.value.length], 0 where there is no value. *)
Definition valueLength (d : Dom) (n : NodeId) : nat :=
  from_option (fun el => String.length (el_value el)) 0 (elementAt d n).

(** The text-control selection setters, as the HTML standard has them: a
    position past the text points at its end, and an end that is not after
    the start puts both at the end.  The inputs of the model are text
    controls; an input of a type without a selection, where these setters
    throw, is outside it. *)
Definition selectRange (len start finish : nat) : nat * nat :=
  let s := Nat.min start len in
  let e := Nat.min finish len in
  if e <=? s then (e, e) else (s, e).

Definition setSelectionRange (n : NodeId) (start finish : nat) : JS unit :=
  modify (fun w =>
    set_textSelection
      (<[n := selectRange (valueLength (document w) n) start finish]> (textSelection w))
      w).

(** [container.selectionStart = v]. *)
Definition assign_selectionStart (n : NodeId) (v : nat) : JS unit :=
  let* e := selectionEnd n in
  setSelectionRange n v (if e <? v then v else e).

(** [container.selectionEnd = v]. *)
Definition assign_selectionEnd (n : NodeId) (v : nat) : JS unit :=
  let* s := selectionStart n in
  setSelectionRange n s v.

(** [document.createRange()]: collapsed at the start of the document. *)
Definition createRange : JS Range :=
  ret {| startContainer := []; startOffset := 0; endContainer := []; endOffset := 0 |}.

(** [range.selectNodeContents( node )]. *)
Definition selectNodeContents (r : Range) (n : NodeId) : JS Range :=
  let* len := gets (fun w => nodeLength (document w) n) in
  ret {| startContainer := n; startOffset := 0; endContainer := n; endOffset := len |}.

(** [range.collapse( toStart )]. *)
Definition collapse (r : Range) (toStart : bool) : Range :=
  if toStart then
    {| startContainer := startContainer r; startOffset := startOffset r;
       endContainer := startContainer r; endOffset := startOffset r |}
  else
    {| startContainer := endContainer r; startOffset := endOffset r;
       endContainer := endContainer r; endOffset := endOffset r |}.

(** [range.setStart( node, offset )].  The DOM also moves the end when the
    new start lies after it; the only caller collapses to the start next,
    which makes the end the start either way. *)
Definition setStart (r : Range) (n : NodeId) (o : nat) : Range :=
  {| startContainer := n; startOffset := o;
     endContainer := endContainer r; endOffset := endOffset r |}.

(** [selection.removeAllRanges()] and [selection.addRange( range )]. *)
Definition removeAllRanges : JS unit := modify (set_selection []).

Definition addRange (r : Range) : JS unit :=
  modify (fun w => set_selection (selection w ++ [r]) w).

(** [container.style.zIndex = v]; assigning [null] removes the property. *)
Definition assign_zIndex (n : NodeId) (v : option string) : JS unit :=
  modify (fun w =>
    set_zIndex (match v with
                | Some z => <[n := z]> (zIndex w)
                | None => delete n (zIndex w)
                end) w).

(** [container.scrollIntoView( alignToTop )]. *)
Definition scrollIntoViewOf (n : NodeId) (alignToTop : bool) : JS unit :=
  modify (fun w => set_view (scrollIntoView P (view w) n alignToTop) w).

(** *** placeCaretAtHorizontalEdge *)

Definition placeCaretAtHorizontalEdge (container : NodeId) (isReverse : bool) : JS unit :=
  let* tag := tagName container in
  if includes ["INPUT"; "TEXTAREA"] tag then
    let* _ := focus container in
    if isReverse then
      let* _ := assign_selectionStart container 0 in
      assign_selectionEnd container 0
    else
      let* v := value container in
      let* v := deref v in
      let* _ := assign_selectionStart container (String.length v) in
      let* v := value container in
      let* v := deref v in
      assign_selectionEnd container (String.length v)
  else
    let* isEditable := isContentEditable container in
    if negb isEditable then focus container
    else
      let* range := createRange in
      let* range := selectNodeContents range container in
      let range := collapse range isReverse in
      let* _ := removeAllRanges in
      let* _ := addRange range in
      focus container.

(** *** caretRangeFromPoint (polyfill) *)

Definition rangeAt (p : CaretPosition) : Range :=
  {| startContainer := offsetNode p; startOffset := offset p;
     endContainer := offsetNode p; endOffset := offset p |}.

Definition caretRangeFromPoint (x y : Q) : JS (option Range) :=
  match doc_caretRangeFromPoint P with
  | Some resolve =>
      gets (fun w => rangeAt <$> resolve (view w) (zIndex w) x y)
  | None =>
      match doc_caretPositionFromPoint P with
      | None => ret None
      | Some resolve =>
          let* point := gets (fun w => resolve (view w) (zIndex w) x y) in
          let* range := createRange in
          let* point := deref point in
          let range := setStart range (offsetNode point) (offset point) in
          let range := collapse range true in
          ret (Some range)
      end
  end.

(** *** placeCaretAtVerticalEdge *)

(** [depth] bounds the nesting of calls; the function calls itself once,
    with [mayUseScroll] false. *)
Fixpoint placeCaretAtVerticalEdge (depth : nat) (container : NodeId) (isReverse : bool)
    (rect : option DOMRect) (mayUseScroll : bool) : JS unit :=
  match depth with
  | 0 => fun _ => OutOfDepth
  | S depth =>
      match rect with
      | None => placeCaretAtHorizontalEdge container isReverse
      | Some rect' =>
          let* isEditable := isContentEditable container in
          if negb isEditable then placeCaretAtHorizontalEdge container isReverse
          else
            let buffer := (r_height rect' / 2)%Q in
            let* editableRect := boundingClientRect container in
            let x := (r_left rect' + r_width rect' / 2)%Q in
            let y := (if isReverse then r_bottom editableRect - buffer
                      else r_top editableRect + buffer)%Q in
            let* _ := assign_zIndex container (Some "10000") in
            let* range := caretRangeFromPoint x y in
            let* _ := assign_zIndex container None in
            let unresolved :=
              if mayUseScroll then
                let* _ := scrollIntoViewOf container isReverse in
                placeCaretAtVerticalEdge depth container isReverse rect false
              else placeCaretAtHorizontalEdge container isReverse in
            match range with
            | None => unresolved
            | Some range =>
                if negb (contains container (startContainer range)) then unresolved
                else
                  let* _ := removeAllRanges in
                  let* _ := addRange range in
                  let* _ := focus container in
                  let* _ := removeAllRanges in
                  addRange range
            end
      end
  end.

End Caret.

Arguments document {P} w.
Arguments selection {P} w.
Arguments textSelection {P} w.
Arguments activeElement {P} w.
Arguments zIndex {P} w.
Arguments view {P} w.
Arguments Returns {P A} a w.
Arguments Throws {P A} e w.
Arguments OutOfDepth {P A}.
Arguments ret {P A} a w.
Arguments bind {P A B} m k w.
Arguments gets {P A} f w.
Arguments deref {P A} o w.
Arguments selectionOf {P} w n.
Arguments set_selection {P} s w.
Arguments set_textSelection {P} t w.
Arguments set_activeElement {P} a w.
Arguments set_zIndex {P} z w.
Arguments set_view {P} v w.
Arguments climb {P} isReverse container node w.
Arguments isHorizontalEdge {P} container isReverse w.
Arguments getVerticalEdge {P} container isReverse w.
Arguments placeCaretAtHorizontalEdge {P} container isReverse w.
Arguments caretRangeFromPoint {P} x y w.
Arguments placeCaretAtVerticalEdge {P} depth container isReverse rect mayUseScroll w.

(** ** What the specification speaks of *)

(** The three kinds of container the functions tell apart. *)
Inductive ContainerKind := SimpleInput | RichEditable | NotEditable.

Definition containerKind (d : Dom) (c : NodeId) : ContainerKind :=
  match elementAt d c with
  | Some el =>
      if existsb (String.eqb (el_tagName el)) ["INPUT"; "TEXTAREA"] then SimpleInput
      else if el_isContentEditable el then RichEditable
      else NotEditable
  | None => NotEditable
  end.

(** Every step from the caret's node up to the container goes through the
    parent's first (reverse) or last (forward) child. *)
Inductive edgeChain (d : Dom) (isReverse : bool) (container : NodeId) : NodeId -> Prop :=
| chain_here : edgeChain d isReverse container container
| chain_step n p :
    parentNode n = Some p ->
    (if isReverse then firstChild d p else lastChild d p) = Some n ->
    edgeChain d isReverse container p ->
    edgeChain d isReverse container n.

(** The test of the code on the offset: it is 0 (reverse) or the length of
    the text content of the caret's node (forward). *)
Definition offsetAtEdge (d : Dom) (isReverse : bool) (r : Range) : Prop :=
  if isReverse then startOffset r = 0
  else exists text, textContentOf d (startContainer r) = Some text
                    /\ endOffset r = String.length text.

Definition atHorizontalEdge {P} (w : World P) (c : NodeId) (isReverse : bool) : Prop :=
  match containerKind (document w) c with
  | SimpleInput =>
      fst (selectionOf w c) = snd (selectionOf w c)
      /\ fst (selectionOf w c) = (if isReverse then 0 else valueLength (document w) c)
  | NotEditable => True
  | RichEditable =>
      exists r rest,
        selection w = r :: rest
        /\ collapsed r = true
        /\ offsetAtEdge (document w) isReverse r
        /\ edgeChain (document w) isReverse c (startContainer r)
  end.

(** The edge as it is stated for a caret: the offset is at the start of
    the caret's node (reverse) or at its end, the DOM's length of the node
    (forward): the number of characters of a text node, the number of
    children of an element. *)
Definition offsetAtNodeEdge (d : Dom) (isReverse : bool) (r : Range) : Prop :=
  if isReverse then startOffset r = 0
  else endOffset r = nodeLength d (startContainer r).

Definition atHorizontalEdgeStated {P} (w : World P) (c : NodeId) (isReverse : bool) : Prop :=
  match containerKind (document w) c with
  | SimpleInput =>
      fst (selectionOf w c) = snd (selectionOf w c)
      /\ fst (selectionOf w c) = (if isReverse then 0 else valueLength (document w) c)
  | NotEditable => True
  | RichEditable =>
      exists r rest,
        selection w = r :: rest
        /\ collapsed r = true
        /\ offsetAtNodeEdge (document w) isReverse r
        /\ edgeChain (document w) isReverse c (startContainer r)
  end.

(** The rectangle [getVerticalEdge] takes for the caret of range [r]. *)
Definition caretRect {P} (w : World P) (r : Range) : option DOMRect :=
  if bool_decide (nodeTypeOf (document w) (startContainer r) = Some ELEMENT_NODE)
  then Some (getBoundingClientRect P (view w) (startContainer r))
  else head (getClientRects P (view w) r).

(** The rectangle as the specification words it: the range's own client
    rectangle, and the start container's bounding rectangle only when the
    range has none.  Only an element has a bounding rectangle; for a caret
    in any other node the fallback gives nothing. *)
Definition caretRect_fallback {P} (w : World P) (r : Range) : option DOMRect :=
  match head (getClientRects P (view w) r) with
  | Some cr => Some cr
  | None =>
      if bool_decide (nodeTypeOf (document w) (startContainer r) = Some ELEMENT_NODE)
      then Some (getBoundingClientRect P (view w) (startContainer r))
      else None
  end.

(** The caret's near edge (top when reverse, bottom when forward) is no
    more than half the caret's height inside the container's edge. *)
Definition nearEdgeWithinBuffer (isReverse : bool) (caret box : DOMRect) : Prop :=
  if isReverse then (r_top caret - r_height caret / 2 <= r_top box)%Q
  else (r_bottom box <= r_bottom caret + r_height caret / 2)%Q.

(** A caret: the collapsed range at offset [o] of node [n]. *)
Definition caretAt (n : NodeId) (o : nat) : Range :=
  {| startContainer := n; startOffset := o; endContainer := n; endOffset := o |}.

(** The world [placeCaretAtHorizontalEdge] leaves behind. *)
Definition placedHorizontally {P} (w : World P) (c : NodeId) (isReverse : bool) : World P :=
  match containerKind (document w) c with
  | SimpleInput =>
      let o := if isReverse then 0 else valueLength (document w) c in
      set_textSelection (<[c := (o, o)]> (textSelection w))
        (set_activeElement (Some c) w)
  | RichEditable =>
      let o := if isReverse then 0 else nodeLength (document w) c in
      set_activeElement (Some c) (set_selection [caretAt c o] w)
  | NotEditable => set_activeElement (Some c) w
  end.

(** The point [placeCaretAtVerticalEdge] resolves: the horizontal centre
    of the given rectangle, half its height inside the container's edge. *)
Definition targetX (given : DOMRect) : Q := (r_left given + r_width given / 2)%Q.

Definition targetY {P} (w : World P) (c : NodeId) (isReverse : bool) (given : DOMRect) : Q :=
  let box := getBoundingClientRect P (view w) c in
  (if isReverse then r_bottom box - r_height given / 2
   else r_top box + r_height given / 2)%Q.

(** The world while the point is resolved, after the z-index is put back,
    and after the container is scrolled into view. *)
Definition raised {P} (c : NodeId) (w : World P) : World P :=
  set_zIndex (<[c := "10000"]> (zIndex w)) w.

Definition restored {P} (c : NodeId) (w : World P) : World P :=
  set_zIndex (delete c (zIndex w)) w.

Definition scrolled {P} (c : NodeId) (alignToTop : bool) (w : World P) : World P :=
  set_view (scrollIntoView P (view w) c alignToTop) w.

Definition resolvePoint {P} (c : NodeId) (isReverse : bool) (given : DOMRect)
    (w : World P) : Outcome P (option Range) :=
  caretRangeFromPoint (targetX given) (targetY w c isReverse given) (raised c w).

(** The resolved range, if there is one and it starts inside [c]. *)
Definition inside (c : NodeId) (o : option Range) : option Range :=
  match o with
  | Some r => if contains c (startContainer r) then Some r else None
  | None => None
  end.

(** The world once range [r] has been made the selection of container [c]. *)
Definition caretSet {P} (c : NodeId) (r : Range) (w : World P) : World P :=
  set_selection [r] (set_activeElement (Some c) w).

(** What [caretRangeFromPoint] makes of a point, given the scroll position
    and the z-indices: a range or [null], or the exception of the polyfill
    when the browser finds no position. *)
Definition pointRange (P : Platform) (v : viewport P) (z : gmap NodeId string)
    (x y : Q) : option Range + JSError :=
  match doc_caretRangeFromPoint P with
  | Some resolve => inl (rangeAt <$> resolve v z x y)
  | None =>
      match doc_caretPositionFromPoint P with
      | None => inl None
      | Some resolve =>
          match resolve v z x y with
          | Some p => inl (Some (rangeAt p))
          | None => inr TypeError
          end
      end
  end.

(** The same for the point [placeCaretAtVerticalEdge] resolves in world
    [w], with the container's z-index raised. *)
Definition resolution {P} (c : NodeId) (isReverse : bool) (given : DOMRect)
    (w : World P) : option Range + JSError :=
  pointRange P (view w) (<[c := "10000"]> (zIndex w))
    (targetX given) (targetY w c isReverse given).

(** Exactly one collapsed range, starting inside the container. *)
Definition oneCaretInside {P} (c : NodeId) (w : World P) : Prop :=
  exists r, selection w = [r] /\ collapsed r = true
            /\ contains c (startContainer r) = true.

(** A computation that only reads hands back the world it was given,
    whether it returns or throws. *)
Definition readOnly {P A} (m : JS P A) : Prop :=
  forall w, match m w with
            | Returns _ w' => w' = w
            | Throws _ w' => w' = w
            | OutOfDepth => True
            end.

(** The caret of the selection, if there is one, sits in a node of the
    container that has text content (a text or element node). *)
Definition caretWithin (d : Dom) (c : NodeId) (sel : list Range) : Prop :=
  match sel with
  | [] => True
  | r :: _ =>
      contains c (startContainer r) = true
      /\ is_Some (textContentOf d (startContainer r))
  end.

(** ** isMac *)

(** [toLowerCase] on the ASCII letters; other characters are kept. *)
Definition lowerAscii (a : ascii) : ascii :=
  let n := nat_of_ascii a in
  if (65 <=? n) && (n <=? 90) then ascii_of_nat (n + 32) else a.

Fixpoint toLowerCase (s : string) : string :=
  match s with
  | EmptyString => EmptyString
  | String a rest => String (lowerAscii a) (toLowerCase rest)
  end.

(** [s.indexOf( needle )]: the first position of [needle] in [s], or -1. *)
Definition indexOf (s needle : string) : Z :=
  match String.index 0 needle s with
  | Some i => Z.of_nat i
  | None => (-1)%Z
  end.

(** [isMac()], with [window.navigator.platform] as its argument. *)
Definition isMac (platform : string) : bool :=
  negb (indexOf (toLowerCase platform) "mac" =? -1)%Z.

(** ** The image block *)

(** The values attributes take here. *)
Inductive JSValue := Undefined | Str (s : string) | Num (q : Q).

(** [array.indexOf( v )] on an array of strings: the first position whose
    element is strictly equal to [v], or -1. *)
Fixpoint arrayIndexFrom (i : Z) (l : list string) (v : JSValue) : Z :=
  match l with
  | [] => (-1)%Z
  | s :: rest =>
      match v with
      | Str t => if String.eqb s t then i else arrayIndexFrom (i + 1)%Z rest v
      | _ => arrayIndexFrom (i + 1)%Z rest v
      end
  end.

Definition arrayIndexOf (l : list string) (v : JSValue) : Z := arrayIndexFrom 0 l v.

(** [updateAlignment( nextAlign )]: the object handed to [setAttributes].
    A key of the object is a key of the map; [width: undefined] is a key
    that is present with the value [Undefined]. *)
Definition updateAlignment (nextAlign : JSValue) : gmap string JSValue :=
  let extraUpdatedAttributes : gmap string JSValue :=
    if negb (arrayIndexOf ["wide"; "full"] nextAlign =? -1)%Z
    then <["width" := Undefined]> (<["height" := Undefined]> ∅)
    else ∅ in
  <["align" := nextAlign]> extraUpdatedAttributes.

(** [isResizable] of [render]. *)
Definition isResizable (align : JSValue) : bool :=
  (arrayIndexOf ["wide"; "full"] align =? -1)%Z.

(** [0 === url.indexOf( 'blob:' )], the [is-transient] class of [render]. *)
Definition isTransient (url : string) : bool := (0 =? indexOf url "blob:")%Z.

(** What the image-size component hands to the function that renders the
    image: the measured size within the container, absent until the image
    has been measured, and the natural size of the image. *)
Record Sizes := {
  imageWidthWithinContainer : option Q;
  imageHeightWithinContainer : option Q;
  imageWidth : Q;
  imageHeight : Q
}.

Record ResizableBox := {
  box_width : option Q;
  box_height : option Q;
  minWidth : Q;
  maxWidth : Q;
  minHeight : Q;
  maxHeight : Q
}.

Inductive ImageView := PlainImage | Resizable (props : ResizableBox).

(** Truthiness of a number that may be [undefined]. *)
Definition truthy (v : option Q) : bool :=
  match v with
  | Some q => negb (Qeq_bool q 0)
  | None => false
  end.

(** [a || b]. *)
Definition orElse (a b : option Q) : option Q := if truthy a then a else b.

(** The function [render] gives to the image-size component, with the
    attributes [align], [width], [height] and [settings.maxWidth] it closes
    over. *)
Definition renderImage (align : JSValue) (width height : option Q) (settingsMaxWidth : Q)
    (sizes : Sizes) : ImageView :=
  let currentWidth := orElse width (imageWidthWithinContainer sizes) in
  let currentHeight := orElse height (imageHeightWithinContainer sizes) in
  if negb (isResizable align) || negb (truthy (imageWidthWithinContainer sizes))
  then PlainImage
  else
    let ratio := (imageWidth sizes / imageHeight sizes)%Q in
    let minW := (if Qltb (imageWidth sizes) (imageHeight sizes) then 10 else 10 * ratio)%Q in
    let minH := (if Qltb (imageHeight sizes) (imageWidth sizes) then 10 else 10 / ratio)%Q in
    Resizable {| box_width := currentWidth; box_height := currentHeight;
                 minWidth := minW; maxWidth := settingsMaxWidth;
                 minHeight := minH; maxHeight := (settingsMaxWidth / ratio)%Q |}.

(** ** A sample page and two browsers *)

Definition element (tag : string) (isEditable : bool) (v : string) : NodeKind :=
  ElementNode {| el_tagName := tag; el_isContentEditable := isEditable; el_value := v |}.

(** html > body > ( input "hello", div[contenteditable] > ( b > "ab", "cd" ),
    section > button, p > "xyz" ). *)
Definition page : Dom :=
  Node DocumentNode
    [ Node (element "HTML" false "")
        [ Node (element "BODY" false "")
            [ Node (element "INPUT" false "hello") [];
              Node (element "DIV" true "")
                [ Node (element "B" true "") [ Node (TextNode "ab") [] ];
                  Node (TextNode "cd") [] ];
              Node (element "SECTION" false "")
                [ Node (element "BUTTON" false "") [] ];
              Node (element "P" false "") [ Node (TextNode "xyz") [] ] ] ] ].

Definition theInput : NodeId := [0; 0; 0].
Definition theEditable : NodeId := [1; 0; 0].
Definition theSection : NodeId := [2; 0; 0].
Definition textAB : NodeId := [0; 0; 1; 0; 0].
Definition textCD : NodeId := [1; 1; 0; 0].
Definition textXYZ : NodeId := [0; 3; 0; 0].

Definition box (t b : Z) : DOMRect :=
  {| r_left := 0; r_top := inject_Z t; r_bottom := inject_Z b;
     r_width := 200; r_height := inject_Z (b - t) |}.

(** A browser with the native [caretRangeFromPoint].  The viewport says
    whether the editable region has been scrolled into view; before that
    it lies below the fold and no point resolves. *)
Definition webkit : Platform := {|
  viewport := bool;
  scrollIntoView := fun (_ : bool) _ _ => true;
  getBoundingClientRect := fun (v : bool) n =>
    if bool_decide (n = theEditable) then (if v then box 0 40 else box 900 940)
    else box 0 1000;
  getClientRects := fun (v : bool) r =>
    if bool_decide (startContainer r = textAB) then [box 0 20]
    else if bool_decide (startContainer r = textCD) then [box 20 40]
    else [];
  doc_caretRangeFromPoint := Some (fun (v : bool) z x y =>
    if v then
      match z !! theEditable with
      | Some _ => Some {| offsetNode := textCD; offset := 1 |}
      | None => Some {| offsetNode := theSection; offset := 0 |}
      end
    else None);
  doc_caretPositionFromPoint := None
|}.

(** A browser with only [caretPositionFromPoint], which finds nothing. *)
Definition gecko : Platform := {|
  viewport := unit;
  scrollIntoView := fun (v : unit) _ _ => v;
  getBoundingClientRect := fun (_ : unit) _ => box 0 40;
  getClientRects := fun (_ : unit) _ => [];
  doc_caretRangeFromPoint := None;
  doc_caretPositionFromPoint := Some (fun (_ : unit) _ _ _ => None)
|}.

(** A browser with neither of the two point methods. *)
Definition bare : Platform := {|
  viewport := bool;
  scrollIntoView := fun (_ : bool) _ _ => true;
  getBoundingClientRect := fun (_ : bool) _ => box 0 40;
  getClientRects := fun (_ : bool) _ => [];
  doc_caretRangeFromPoint := None;
  doc_caretPositionFromPoint := None
|}.

Definition world (P : Platform) (v : viewport P) (sel : list Range) : World P :=
  {| document := page; selection := sel; textSelection := ∅;
     activeElement := None; zIndex := ∅; view := v |}.

(** The sample page with the input's selection at [(s, e)]. *)
Definition inputWorld (s e : nat) : World webkit :=
  set_textSelection {[ theInput := (s, e) ]} (world webkit false []).

(** ** Facts *)

Section CaretFacts.

Context {P : Platform}.
Implicit Types (w : World P) (c n : NodeId) (isReverse : bool).

Lemma bind_gets {A B} (f : World P -> A) (k : A -> JS P B) w :
  bind (gets f) k w = k (f w) w.
Proof. reflexivity. Qed.

Lemma bind_ret {A B} (a : A) (k : A -> JS P B) w : bind (ret a) k w = k a w.
Proof. reflexivity. Qed.

Lemma bind_modify {B} (f : World P -> World P) (k : unit -> JS P B) w :
  bind (modify P f) k w = k tt (f w).
Proof. reflexivity. Qed.

Lemma bind_assoc {A B C} (m : JS P A) (f : A -> JS P B) (g : B -> JS P C) w :
  bind (bind m f) g w = bind m (fun a => bind (f a) g) w.
Proof. unfold bind. destruct (m w); reflexivity. Qed.

Lemma Returns_true_iff (b : bool) w :
  Returns (P := P) b w = Returns true w <-> b = true.
Proof. split; [intros H; injection H; auto | intros ->; reflexivity]. Qed.

Lemma readOnly_ret {A} (a : A) : readOnly (P := P) (ret a).
Proof. intros w. reflexivity. Qed.

Lemma readOnly_throw {A} e : readOnly (P := P) (throw P (A := A) e).
Proof. intros w. reflexivity. Qed.

Lemma readOnly_gets {A} (f : World P -> A) : readOnly (gets f).
Proof. intros w. reflexivity. Qed.

Lemma readOnly_deref {A} (o : option A) : readOnly (P := P) (deref o).
Proof. destruct o; intros w; reflexivity. Qed.

Lemma readOnly_bind {A B} (m : JS P A) (k : A -> JS P B) :
  readOnly m -> (forall a, readOnly (k a)) -> readOnly (bind m k).
Proof.
  intros Hm Hk w. unfold bind. specialize (Hm w).
  destruct (m w) as [a w'|e w'|]; subst; auto. apply Hk.
Qed.

Create HintDb readonly.

Ltac read_only :=
  repeat first
    [ solve [ auto with readonly ]
    | apply readOnly_ret | apply readOnly_throw | apply readOnly_gets
    | apply readOnly_deref
    | apply readOnly_bind; [ | intros ? ]
    | progress cbv zeta
    | match goal with
      | |- readOnly (if ?b then _ else _) => destruct b
      | |- readOnly (match ?o with Some _ => _ | None => _ end) => destruct o
      end ].

Lemma readOnly_climb isReverse c n : readOnly (P := P) (climb isReverse c n).
Proof.
  induction n as [|i p IH]; simpl.
  - destruct (bool_decide _); [apply readOnly_ret | apply readOnly_throw].
  - destruct (bool_decide _); [apply readOnly_ret |].
    apply readOnly_bind; [apply readOnly_gets | intros child].
    destruct (negb _); [apply readOnly_ret | exact IH].
Qed.

#[local] Hint Resolve readOnly_climb : readonly.

Lemma readOnly_isHorizontalEdge c isReverse :
  readOnly (P := P) (isHorizontalEdge c isReverse).
Proof.
  unfold isHorizontalEdge, tagName, selectionStart, selectionEnd, value,
    isContentEditable, firstRange, textContent.
  read_only.
Qed.

#[local] Hint Resolve readOnly_isHorizontalEdge : readonly.

Lemma readOnly_getVerticalEdge c isReverse :
  readOnly (P := P) (getVerticalEdge c isReverse).
Proof.
  unfold getVerticalEdge, tagName, isContentEditable, firstRange, nodeType,
    boundingClientRect, clientRects.
  read_only.
Qed.

(** *** The horizontal edge *)

Lemma climb_true_iff isReverse c n w :
  climb isReverse c n w = Returns true w <-> edgeChain (document w) isReverse c n.
Proof.
  split.
  - induction n as [|i p IH]; simpl.
    + case_bool_decide as Hc; [subst c; intros _; apply chain_here |].
      intros H; discriminate H.
    + case_bool_decide as Hc; [subst c; intros _; apply chain_here |].
      unfold bind, orderChild, gets.
      case_bool_decide as Hch; simpl; [|intros H; discriminate H].
      intros H. apply (chain_step _ _ _ (i :: p) p); [reflexivity | exact Hch | auto].
  - induction 1 as [|n p Hp Hch _ IH].
    + destruct c; simpl; try case_bool_decide; done.
    + destruct n as [|i q]; [discriminate|]. injection Hp as ->. simpl.
      case_bool_decide; [reflexivity|].
      unfold bind, orderChild, gets. rewrite Hch.
      rewrite bool_decide_eq_true_2 by reflexivity. simpl. exact IH.
Qed.

(** The walk cannot throw from inside the container, and from outside it
    never answers [true]: it answers [false] or reaches the document and
    throws. *)
Lemma climb_inside isReverse c n w :
  contains c n = true -> exists b, climb isReverse c n w = Returns b w.
Proof.
  induction n as [|i p IH]; cbn [contains climb]; case_bool_decide as Hc.
  - intros _. exists true. reflexivity.
  - intros H; discriminate H.
  - intros _. exists true. reflexivity.
  - intros Hp. unfold orderChild. rewrite bind_gets. destruct (negb _).
    + exists false. reflexivity.
    + apply IH, Hp.
Qed.

Lemma climb_outside isReverse c n w :
  contains c n = false ->
  climb isReverse c n w = Returns false w
  \/ climb isReverse c n w = Throws TypeError w.
Proof.
  induction n as [|i p IH]; cbn [contains climb]; case_bool_decide as Hc;
    try (intros H; discriminate H).
  - intros _. right. reflexivity.
  - intros Hp. unfold orderChild. rewrite bind_gets. destruct (negb _).
    + left. reflexivity.
    + apply IH, Hp.
Qed.

(** In a text node the length of the text is the DOM's length of the
    node, so there "the end of the text" is the end of the node. *)
Remark text_length_is_node_length (d : Dom) n text :
  nodeTypeOf d n = Some 3 ->
  textContentOf d n = Some text ->
  String.length text = nodeLength d n.
Proof.
  unfold nodeTypeOf, textContentOf, nodeLength.
  destruct (nodeAt d n) as [[[|el|data] ks]|]; try discriminate.
  intros _ [= <-]. reflexivity.
Qed.

(** When [isHorizontalEdge] returns [true], with the test of the code on
    the offset: on a simple input, the selection is collapsed and sits at
    0 (reverse) or at the length of the text (forward); on a rich editable
    region, the selection's range is collapsed, its offset is 0 (reverse)
    or the length of the text content of the caret's node (forward), and
    every step from that node up to the container goes through the
    parent's first (reverse) or last (forward) child; on any other
    container, always. *)
Theorem isHorizontalEdge_true_iff c isReverse w :
  isHorizontalEdge c isReverse w = Returns true w <-> atHorizontalEdge w c isReverse.
Proof.
  unfold isHorizontalEdge, atHorizontalEdge, containerKind, tagName, value,
    selectionStart, selectionEnd, isContentEditable, editable, firstRange,
    textContent, valueLength, includes.
  rewrite bind_gets.
  destruct (elementAt (document w) c) as [el|] eqn:Hel; simpl.
  2: { rewrite bind_gets, Hel. simpl. split; auto. }
  rewrite !orb_false_r.
  destruct (_ || _); simpl.
  - rewrite !bind_gets. destruct (selectionOf w c) as [s e]; simpl.
    destruct (Nat.eqb_spec s e) as [->|Hse]; simpl.
    + destruct isReverse.
      * unfold ret. rewrite Returns_true_iff, Nat.eqb_eq. tauto.
      * rewrite bind_gets, Hel. simpl. rewrite bind_ret. unfold ret.
        rewrite Returns_true_iff, Nat.eqb_eq. intuition congruence.
    + split; [intros H; discriminate H | intros [? _]; contradiction].
  - rewrite bind_gets, Hel. simpl.
    destruct (el_isContentEditable el); simpl; [|split; auto].
    rewrite bind_gets.
    destruct (selection w) as [|r rest].
    { split; [intros H; discriminate H | intros (r & rest & H & _); discriminate H]. }
    destruct (collapsed r) eqn:Hcol; simpl.
    2: { split; [intros H; discriminate H|].
         intros (r' & rest' & H & Hc & _). injection H as <- <-. congruence. }
    destruct isReverse; simpl.
    + destruct (Nat.eqb_spec (startOffset r) 0) as [H0|H0]; simpl.
      * rewrite bind_ret, climb_true_iff. split.
        -- intros Hch. exists r, rest. auto.
        -- intros (r' & rest' & H & _ & _ & Hch). injection H as <- <-. exact Hch.
      * split; [intros H; discriminate H|].
        intros (r' & rest' & H & _ & Hoff & _). injection H as <- <-. contradiction.
    + rewrite bind_assoc, bind_gets.
      destruct (textContentOf (document w) (startContainer r)) as [text|] eqn:Htext; simpl.
      2: { split; [intros H; discriminate H|].
           intros (r' & rest' & H & _ & (text & Ht & _) & _). injection H as <- <-.
           congruence. }
      rewrite bind_assoc, !bind_ret.
      destruct (Nat.eqb_spec (endOffset r) (String.length text)) as [Hlen|Hlen]; simpl.
      * rewrite climb_true_iff. split.
        -- intros Hch. exists r, rest. repeat split; auto. exists text. auto.
        -- intros (r' & rest' & H & _ & _ & Hch). injection H as <- <-. exact Hch.
      * split; [intros H; discriminate H|].
        intros (r' & rest' & H & _ & (text' & Ht & Hl) & _). injection H as <- <-.
        congruence.
Qed.

Lemma text_node_has_text (d : Dom) n :
  nodeTypeOf d n = Some 3 -> exists text, textContentOf d n = Some text.
Proof.
  unfold nodeTypeOf, textContentOf.
  destruct (nodeAt d n) as [[[|el|data] ks]|]; try discriminate.
  intros _. eexists. reflexivity.
Qed.

(** With the caret in a text node, or in the reverse direction, the test of
    the code on the offset is the stated one: there [isHorizontalEdge]
    returns [true] exactly when the caret is at the edge as stated. *)
Lemma isHorizontalEdge_true_iff_text c isReverse w :
  (isReverse = true
   \/ forall r rest, selection w = r :: rest ->
                     nodeTypeOf (document w) (startContainer r) = Some 3) ->
  isHorizontalEdge c isReverse w = Returns true w
  <-> atHorizontalEdgeStated w c isReverse.
Proof.
  intros Hcase. rewrite isHorizontalEdge_true_iff.
  unfold atHorizontalEdge, atHorizontalEdgeStated.
  destruct (containerKind (document w) c); try reflexivity.
  assert (Hoff : forall r rest, selection w = r :: rest ->
            offsetAtEdge (document w) isReverse r
            <-> offsetAtNodeEdge (document w) isReverse r).
  { intros r rest Hsel. unfold offsetAtEdge, offsetAtNodeEdge.
    destruct isReverse; [reflexivity|].
    destruct Hcase as [Hf|Htext]; [discriminate Hf|].
    specialize (Htext r rest Hsel). split.
    - intros (text & Ht & ->). eapply text_length_is_node_length; eassumption.
    - intros Hlen. destruct (text_node_has_text _ _ Htext) as [text Ht].
      exists text. split; [exact Ht|].
      rewrite Hlen. symmetry. eapply text_length_is_node_length; eassumption. }
  split; intros (r & rest & Hsel & Hcol & Ho & Hch); exists r, rest;
    (split; [exact Hsel|]); (split; [exact Hcol|]); (split; [|exact Hch]);
    apply (Hoff r rest Hsel); exact Ho.
Qed.

(** *** The vertical edge *)

Lemma Qgtb_false_iff a b : Qgtb a b = false <-> (a <= b)%Q.
Proof. unfold Qgtb. rewrite negb_false_iff. apply Qle_bool_iff. Qed.

Lemma Qltb_false_iff a b : Qltb a b = false <-> (b <= a)%Q.
Proof. unfold Qltb. rewrite negb_false_iff. apply Qle_bool_iff. Qed.

Lemma containerKind_rich d c :
  containerKind d c = RichEditable ->
  includes ["INPUT"; "TEXTAREA"] (el_tagName <$> elementAt d c) = false
  /\ editable d c = true.
Proof.
  unfold containerKind, editable, includes.
  destruct (elementAt d c) as [el|]; simpl; [|discriminate].
  destruct (_ || _); [discriminate|].
  destruct (el_isContentEditable el); [auto | discriminate].
Qed.

(** How [getVerticalEdge] runs on a rich editable region whose selection
    starts with the collapsed range [r]. *)
Lemma getVerticalEdge_collapsed c isReverse w r rest :
  containerKind (document w) c = RichEditable ->
  selection w = r :: rest ->
  collapsed r = true ->
  getVerticalEdge c isReverse w =
    match caretRect w r with
    | None => Returns noEdge w
    | Some cr =>
        let box := getBoundingClientRect P (view w) c in
        Returns
          {| isEdge :=
               negb (if isReverse
                     then Qgtb (r_top cr - r_height cr / 2) (r_top box)
                     else Qltb (r_bottom cr + r_height cr / 2) (r_bottom box));
             rect := Some cr |} w
    end.
Proof.
  intros Hk Hsel Hcol. apply containerKind_rich in Hk as [Htag Hed].
  unfold getVerticalEdge, tagName, isContentEditable, firstRange, nodeType,
    boundingClientRect, clientRects, caretRect.
  rewrite bind_gets, Htag, bind_gets, Hed. simpl.
  rewrite bind_gets, Hsel, Hcol. simpl. rewrite bind_gets.
  case_bool_decide.
  - rewrite bind_assoc, bind_gets, bind_ret, bind_gets. simpl.
    destruct isReverse; simpl;
      match goal with |- context [if ?b then _ else _] => destruct b end;
      reflexivity.
  - rewrite bind_assoc, bind_gets, bind_ret.
    destruct (head _) as [cr|]; [|reflexivity].
    rewrite bind_gets.
    destruct isReverse; simpl;
      match goal with |- context [if ?b then _ else _] => destruct b end;
      reflexivity.
Qed.

(** C2. On a rich editable region [getVerticalEdge] answers
    [{ isEdge: false }], without a rectangle, when there is no range, when
    the range is not collapsed, or when no caret rectangle is to be had;
    otherwise it returns the caret rectangle together with [isEdge], which
    is true exactly when the caret's near edge (top when reverse, bottom
    when forward) is within half the caret's height of the container's
    matching edge.  The rectangle comes back whichever way that goes. *)
Theorem getVerticalEdge_rich c isReverse w :
  containerKind (document w) c = RichEditable ->
  match selection w with
  | [] => getVerticalEdge c isReverse w = Returns noEdge w
  | r :: _ =>
      if collapsed r then
        match caretRect w r with
        | None => getVerticalEdge c isReverse w = Returns noEdge w
        | Some cr =>
            exists b,
              getVerticalEdge c isReverse w
              = Returns {| isEdge := b; rect := Some cr |} w
              /\ (b = true <->
                  nearEdgeWithinBuffer isReverse cr (getBoundingClientRect P (view w) c))
        end
      else getVerticalEdge c isReverse w = Returns noEdge w
  end.
Proof.
  intros Hk.
  destruct (selection w) as [|r rest] eqn:Hsel.
  { apply containerKind_rich in Hk as [Htag Hed].
    unfold getVerticalEdge, tagName, isContentEditable, firstRange.
    rewrite bind_gets, Htag, bind_gets, Hed. simpl.
    rewrite bind_gets, Hsel. reflexivity. }
  destruct (collapsed r) eqn:Hcol.
  2: { apply containerKind_rich in Hk as [Htag Hed].
       unfold getVerticalEdge, tagName, isContentEditable, firstRange.
       rewrite bind_gets, Htag, bind_gets, Hed. simpl.
       rewrite bind_gets, Hsel, Hcol. reflexivity. }
  rewrite (getVerticalEdge_collapsed c isReverse w r rest Hk Hsel Hcol).
  destruct (caretRect w r) as [cr|]; [|reflexivity].
  eexists. split; [reflexivity|].
  unfold nearEdgeWithinBuffer. rewrite negb_true_iff.
  destruct isReverse; [apply Qgtb_false_iff | apply Qltb_false_iff].
Qed.

(** For a caret that lies inside the container's box, being within the
    buffer of the edge is being at most the buffer away from it. *)
Remark nearEdgeWithinBuffer_inside (isReverse : bool) (caret box : DOMRect) :
  (r_top box <= r_top caret)%Q ->
  (r_bottom caret <= r_bottom box)%Q ->
  nearEdgeWithinBuffer isReverse caret box <->
  if isReverse then (0 <= r_top caret - r_top box <= r_height caret / 2)%Q
  else (0 <= r_bottom box - r_bottom caret <= r_height caret / 2)%Q.
Proof.
  intros Ht Hb. unfold nearEdgeWithinBuffer. destruct isReverse.
  - split.
    + intros H. split.
      * apply (Qplus_le_l _ _ (r_top box)). ring_simplify. exact Ht.
      * apply (Qplus_le_l _ _ (r_top box - r_height caret / 2)). ring_simplify.
        ring_simplify in H. exact H.
    + intros [_ H]. apply (Qplus_le_l _ _ (r_height caret / 2 - r_top box)).
      ring_simplify. ring_simplify in H. exact H.
  - split.
    + intros H. split.
      * apply (Qplus_le_l _ _ (r_bottom caret)). ring_simplify. exact Hb.
      * apply (Qplus_le_l _ _ (r_bottom caret)). ring_simplify.
        ring_simplify in H. exact H.
    + intros [_ H]. apply (Qplus_le_l _ _ (- r_bottom caret)).
      ring_simplify. ring_simplify in H. exact H.
Qed.

(** How the code chooses the caret rectangle.  On a rich editable region
    with a collapsed selection it is the start container's own bounding
    rectangle whenever the start container is an element node, and the
    range's first client rectangle otherwise. *)
Lemma getVerticalEdge_caretRect c isReverse w r rest :
  containerKind (document w) c = RichEditable ->
  selection w = r :: rest ->
  collapsed r = true ->
  exists info,
    getVerticalEdge c isReverse w = Returns info w
    /\ rect info =
       if bool_decide (nodeTypeOf (document w) (startContainer r) = Some ELEMENT_NODE)
       then Some (getBoundingClientRect P (view w) (startContainer r))
       else head (getClientRects P (view w) r).
Proof.
  intros Hk Hsel Hcol.
  rewrite (getVerticalEdge_collapsed c isReverse w r rest Hk Hsel Hcol).
  fold (caretRect w r).
  destruct (caretRect w r) as [cr|]; eexists; split; reflexivity.
Qed.

(** C8. On a rich editable region with a collapsed selection, where a
    collapsed range in an element node has no client rectangle of its own
    (the empty containers the code adjusts for), the caret rectangle is
    the range's client rectangle, and the start container's bounding
    rectangle only as a fallback, when the range has none. *)
Theorem getVerticalEdge_caretRect_fallback c isReverse w r rest :
  containerKind (document w) c = RichEditable ->
  selection w = r :: rest ->
  collapsed r = true ->
  (nodeTypeOf (document w) (startContainer r) = Some ELEMENT_NODE ->
   getClientRects P (view w) r = []) ->
  exists info,
    getVerticalEdge c isReverse w = Returns info w
    /\ rect info = caretRect_fallback w r.
Proof.
  intros Hk Hsel Hcol Hnone.
  rewrite (getVerticalEdge_collapsed c isReverse w r rest Hk Hsel Hcol).
  assert (Hsame : caretRect w r = caretRect_fallback w r).
  { unfold caretRect, caretRect_fallback. case_bool_decide as Hel.
    - rewrite (Hnone Hel). reflexivity.
    - destruct (head _); reflexivity. }
  rewrite <- Hsame.
  destruct (caretRect w r) as [cr|]; eexists; split; reflexivity.
Qed.

(** *** Horizontal placement *)

Lemma bind_run {A B} (m : JS P A) (k : A -> JS P B) w a w' :
  m w = Returns a w' -> bind m k w = k a w'.
Proof. unfold bind. intros ->. reflexivity. Qed.

Lemma assign_selectionStart_run n v w :
  assign_selectionStart P n v w =
  Returns tt
    (set_textSelection
       (<[n := selectRange (valueLength (document w) n) v
                 (if snd (selectionOf w n) <? v then v else snd (selectionOf w n))]>
          (textSelection w)) w).
Proof. reflexivity. Qed.

Lemma assign_selectionEnd_run n v w :
  assign_selectionEnd P n v w =
  Returns tt
    (set_textSelection
       (<[n := selectRange (valueLength (document w) n) (fst (selectionOf w n)) v]>
          (textSelection w)) w).
Proof. reflexivity. Qed.

Lemma selectionOf_insert n x t w :
  selectionOf (set_textSelection (<[n := x]> t) w) n = x.
Proof. unfold selectionOf. simpl. rewrite lookup_insert_eq. reflexivity. Qed.

Lemma selectRange_to_start len e0 :
  selectRange len (fst (selectRange len 0 (if e0 <? 0 then 0 else e0))) 0 = (0, 0).
Proof.
  unfold selectRange. rewrite Nat.min_0_l. simpl. reflexivity.
Qed.

Lemma selectRange_to_end len e0 :
  selectRange len (fst (selectRange len len (if e0 <? len then len else e0))) len
  = (len, len).
Proof.
  unfold selectRange. rewrite Nat.min_id.
  assert (Nat.min (if e0 <? len then len else e0) len = len) as ->.
  { destruct (Nat.ltb_spec e0 len); lia. }
  rewrite Nat.leb_refl. simpl. rewrite Nat.min_id, Nat.leb_refl. reflexivity.
Qed.

Lemma placeCaretAtHorizontalEdge_run c isReverse w :
  placeCaretAtHorizontalEdge c isReverse w = Returns tt (placedHorizontally w c isReverse).
Proof.
  unfold placeCaretAtHorizontalEdge, placedHorizontally, containerKind, tagName,
    isContentEditable, editable, includes, value.
  rewrite bind_gets.
  destruct (elementAt (document w) c) as [el|] eqn:Hel; simpl.
  2: { rewrite bind_gets, Hel. reflexivity. }
  rewrite !orb_false_r. destruct (_ || _); simpl.
  - unfold focus. rewrite bind_modify. destruct isReverse.
    + rewrite (bind_run _ _ _ _ _ (assign_selectionStart_run _ _ _)).
      rewrite assign_selectionEnd_run. f_equal.
      rewrite selectionOf_insert. unfold set_textSelection.
      cbn [document textSelection selection activeElement zIndex view set_activeElement].
      rewrite insert_insert_eq, selectRange_to_start. reflexivity.
    + rewrite bind_gets. simpl. rewrite Hel. simpl. rewrite bind_ret.
      rewrite (bind_run _ _ _ _ _ (assign_selectionStart_run _ _ _)).
      rewrite bind_gets. simpl. rewrite Hel. simpl. rewrite bind_ret.
      rewrite assign_selectionEnd_run. f_equal.
      rewrite selectionOf_insert. unfold set_textSelection, valueLength.
      cbn [document textSelection selection activeElement zIndex view set_activeElement].
      rewrite Hel. cbn [from_option].
      rewrite insert_insert_eq, selectRange_to_end. reflexivity.
  - rewrite bind_gets, Hel. simpl.
    destruct (el_isContentEditable el); simpl; [|reflexivity].
    unfold createRange, selectNodeContents, removeAllRanges, addRange, focus.
    rewrite bind_ret, bind_assoc, bind_gets, bind_ret, !bind_modify.
    unfold modify. destruct isReverse; reflexivity.
Qed.

(** C3. [placeCaretAtHorizontalEdge] returns, with the container focused,
    and: on a simple input, selection start and end both 0 (reverse) or
    both the length of the text (forward); on a rich editable region, the
    selection is the one range over the container's contents collapsed to
    its start (reverse) or end (forward); on any other container, nothing
    but the focus has changed. *)
Theorem placeCaretAtHorizontalEdge_spec c isReverse w :
  exists w',
    placeCaretAtHorizontalEdge c isReverse w = Returns tt w'
    /\ activeElement w' = Some c
    /\ match containerKind (document w) c with
       | SimpleInput =>
           selectionOf w' c
           = if isReverse then (0, 0)
             else (valueLength (document w) c, valueLength (document w) c)
       | RichEditable =>
           selection w'
           = [caretAt c (if isReverse then 0 else nodeLength (document w) c)]
       | NotEditable => w' = set_activeElement (Some c) w
       end.
Proof.
  exists (placedHorizontally w c isReverse).
  split; [apply placeCaretAtHorizontalEdge_run|].
  unfold placedHorizontally.
  destruct (containerKind (document w) c); (split; [reflexivity|]).
  - rewrite selectionOf_insert. destruct isReverse; reflexivity.
  - reflexivity.
  - reflexivity.
Qed.

(** *** Vertical placement *)

Lemma collapsed_rangeAt p : collapsed (rangeAt p) = true.
Proof.
  unfold collapsed, rangeAt. simpl.
  rewrite bool_decide_eq_true_2 by reflexivity. apply Nat.eqb_refl.
Qed.

Lemma collapsed_caretAt n o : collapsed (caretAt n o) = true.
Proof. apply (collapsed_rangeAt {| offsetNode := n; offset := o |}). Qed.

Lemma contains_refl c : contains c c = true.
Proof. destruct c; cbn [contains]; rewrite bool_decide_eq_true_2; reflexivity. Qed.

Lemma caretRangeFromPoint_run x y w :
  caretRangeFromPoint x y w =
  match pointRange P (view w) (zIndex w) x y with
  | inl o => Returns o w
  | inr e => Throws e w
  end.
Proof.
  unfold caretRangeFromPoint, pointRange.
  destruct (doc_caretRangeFromPoint P) as [f|]; [reflexivity|].
  destruct (doc_caretPositionFromPoint P) as [g|]; [|reflexivity].
  rewrite bind_gets. unfold createRange. rewrite bind_ret.
  destruct (g _ _ _ _) as [p|]; reflexivity.
Qed.

Lemma pointRange_collapsed v z x y r :
  pointRange P v z x y = inl (Some r) -> collapsed r = true.
Proof.
  unfold pointRange.
  destruct (doc_caretRangeFromPoint P) as [f|].
  - destruct (f v z x y) as [p|]; intros [= <-]. apply collapsed_rangeAt.
  - destruct (doc_caretPositionFromPoint P) as [g|]; [|discriminate].
    destruct (g v z x y) as [p|]; intros [= <-]. apply collapsed_rangeAt.
Qed.

Lemma inside_Some c o r :
  inside c o = Some r -> o = Some r /\ contains c (startContainer r) = true.
Proof.
  destruct o as [r'|]; simpl; [|discriminate].
  destruct (contains c (startContainer r')) eqn:H; [|discriminate].
  intros [= <-]. auto.
Qed.

Lemma restored_raised c w :
  set_zIndex (delete c (zIndex (raised c w))) (raised c w) = restored c w.
Proof.
  unfold raised, restored, set_zIndex. simpl. rewrite delete_insert_eq. reflexivity.
Qed.

(** One call of [placeCaretAtVerticalEdge] with a rectangle, on a content
    editable container. *)
Lemma placeCaretAtVerticalEdge_step d c isReverse given mayUseScroll w :
  editable (document w) c = true ->
  placeCaretAtVerticalEdge (S d) c isReverse (Some given) mayUseScroll w =
  match resolvePoint c isReverse given w with
  | Returns o _ =>
      match inside c o with
      | Some r => Returns tt (caretSet c r (restored c w))
      | None =>
          if mayUseScroll then
            placeCaretAtVerticalEdge d c isReverse (Some given) false
              (scrolled c isReverse (restored c w))
          else placeCaretAtHorizontalEdge c isReverse (restored c w)
      end
  | Throws e _ => Throws e (raised c w)
  | OutOfDepth => OutOfDepth
  end.
Proof.
  intros Hed. unfold resolvePoint.
  cbn [placeCaretAtVerticalEdge]. unfold isContentEditable, boundingClientRect.
  rewrite bind_gets, Hed. cbn [negb]. rewrite bind_gets.
  unfold assign_zIndex at 1. rewrite bind_modify.
  fold (raised c w). fold (targetX given). fold (targetY w c isReverse given).
  unfold bind at 1.
  pose proof (caretRangeFromPoint_run (targetX given) (targetY w c isReverse given)
                (raised c w)) as Hrun.
  destruct (caretRangeFromPoint _ _ (raised c w)) as [o w'|e w'|] eqn:Hr.
  - assert (w' = raised c w) as ->
      by (destruct (pointRange _ _ _ _ _); congruence).
    unfold assign_zIndex. rewrite bind_modify, restored_raised.
    destruct o as [r|]; cbn [inside].
    + destruct (contains c (startContainer r)); cbn [negb].
      * unfold removeAllRanges, addRange, focus. rewrite !bind_modify. reflexivity.
      * destruct mayUseScroll; [|reflexivity].
        unfold scrollIntoViewOf. rewrite bind_modify. reflexivity.
    + destruct mayUseScroll; [|reflexivity].
      unfold scrollIntoViewOf. rewrite bind_modify. reflexivity.
  - destruct (pointRange _ _ _ _ _); congruence.
  - reflexivity.
Qed.

Lemma placeCaretAtVerticalEdge_direct d c isReverse given mayUseScroll w :
  given = None \/ editable (document w) c = false ->
  placeCaretAtVerticalEdge (S d) c isReverse given mayUseScroll w
  = placeCaretAtHorizontalEdge c isReverse w.
Proof.
  intros [->|Hed]; [reflexivity|].
  destruct given as [given|]; [|reflexivity].
  cbn [placeCaretAtVerticalEdge]. unfold isContentEditable.
  rewrite bind_gets, Hed. reflexivity.
Qed.

Lemma resolvePoint_run c isReverse given w :
  resolvePoint c isReverse given w =
  match resolution c isReverse given w with
  | inl o => Returns o (raised c w)
  | inr e => Throws e (raised c w)
  end.
Proof. unfold resolvePoint. rewrite caretRangeFromPoint_run. reflexivity. Qed.

Lemma placedHorizontally_frame w c isReverse :
  document (placedHorizontally w c isReverse) = document w
  /\ zIndex (placedHorizontally w c isReverse) = zIndex w
  /\ view (placedHorizontally w c isReverse) = view w.
Proof.
  unfold placedHorizontally. destruct (containerKind (document w) c); auto.
Qed.

Lemma placeCaretAtVerticalEdge_noscroll_depth d c isReverse given w :
  placeCaretAtVerticalEdge (S d) c isReverse given false w
  = placeCaretAtVerticalEdge 1 c isReverse given false w.
Proof. reflexivity. Qed.

Lemma placeCaretAtVerticalEdge_noscroll_ends c isReverse given w :
  placeCaretAtVerticalEdge 1 c isReverse given false w <> OutOfDepth.
Proof.
  destruct given as [given|].
  2: { rewrite placeCaretAtVerticalEdge_direct by auto.
       rewrite placeCaretAtHorizontalEdge_run. discriminate. }
  destruct (editable (document w) c) eqn:Hed.
  2: { rewrite placeCaretAtVerticalEdge_direct by auto.
       rewrite placeCaretAtHorizontalEdge_run. discriminate. }
  rewrite placeCaretAtVerticalEdge_step by exact Hed.
  rewrite resolvePoint_run.
  destruct (resolution _ _ _ _) as [o|e]; [|discriminate].
  destruct (inside c o); [discriminate|].
  rewrite placeCaretAtHorizontalEdge_run. discriminate.
Qed.

(** C4. Every call ends, and never nests deeper than two calls: depth 2
    is enough whatever the arguments, depth 1 when scrolling is off.  When
    the point resolves to no range inside the container, a call that may
    scroll scrolls the container into view, aligned by [isReverse], and
    goes on as the one call with scrolling off; a call that may not scroll
    goes on as [placeCaretAtHorizontalEdge]. *)
Theorem placeCaretAtVerticalEdge_bounded_retry c isReverse given mayUseScroll w :
  (forall d, placeCaretAtVerticalEdge (S (S d)) c isReverse given mayUseScroll w
             = placeCaretAtVerticalEdge 2 c isReverse given mayUseScroll w)
  /\ placeCaretAtVerticalEdge 2 c isReverse given mayUseScroll w <> OutOfDepth
  /\ (forall d, placeCaretAtVerticalEdge (S d) c isReverse given false w
                = placeCaretAtVerticalEdge 1 c isReverse given false w)
  /\ placeCaretAtVerticalEdge 1 c isReverse given false w <> OutOfDepth
  /\ (forall rect' o,
        given = Some rect' ->
        editable (document w) c = true ->
        resolvePoint c isReverse rect' w = Returns o (raised c w) ->
        inside c o = None ->
        forall d,
          placeCaretAtVerticalEdge (S d) c isReverse given mayUseScroll w =
          if mayUseScroll then
            placeCaretAtVerticalEdge d c isReverse given false
              (scrolled c isReverse (restored c w))
          else placeCaretAtHorizontalEdge c isReverse (restored c w)).
Proof.
  assert (Hdepth : forall d,
    placeCaretAtVerticalEdge (S (S d)) c isReverse given mayUseScroll w
    = placeCaretAtVerticalEdge 2 c isReverse given mayUseScroll w).
  { intros d. destruct given as [given|].
    2: { rewrite !placeCaretAtVerticalEdge_direct by auto. reflexivity. }
    destruct (editable (document w) c) eqn:Hed.
    2: { rewrite !placeCaretAtVerticalEdge_direct by auto. reflexivity. }
    rewrite !placeCaretAtVerticalEdge_step by exact Hed.
    destruct (resolvePoint c isReverse given w) as [o w'|e w'|]; reflexivity. }
  split; [exact Hdepth|]. split.
  { destruct given as [given|].
    2: { rewrite placeCaretAtVerticalEdge_direct by auto.
         rewrite placeCaretAtHorizontalEdge_run. discriminate. }
    destruct (editable (document w) c) eqn:Hed.
    2: { rewrite placeCaretAtVerticalEdge_direct by auto.
         rewrite placeCaretAtHorizontalEdge_run. discriminate. }
    rewrite placeCaretAtVerticalEdge_step by exact Hed.
    rewrite resolvePoint_run.
    destruct (resolution _ _ _ _) as [o|e]; [|discriminate].
    destruct (inside c o); [discriminate|].
    destruct mayUseScroll.
    - apply placeCaretAtVerticalEdge_noscroll_ends.
    - rewrite placeCaretAtHorizontalEdge_run. discriminate. }
  split; [intros d; apply placeCaretAtVerticalEdge_noscroll_depth|].
  split; [apply placeCaretAtVerticalEdge_noscroll_ends|].
  intros rect' o -> Hed Hres Hin d.
  rewrite placeCaretAtVerticalEdge_step by exact Hed.
  rewrite Hres, Hin. reflexivity.
Qed.

(** C10. Without a rectangle, or on a container that is not content
    editable, [placeCaretAtVerticalEdge] is [placeCaretAtHorizontalEdge]
    on the same world, which returns with the z-indices and the scroll
    position as they were. *)
Theorem placeCaretAtVerticalEdge_delegates d c isReverse given mayUseScroll w :
  given = None \/ editable (document w) c = false ->
  placeCaretAtVerticalEdge (S d) c isReverse given mayUseScroll w
  = placeCaretAtHorizontalEdge c isReverse w
  /\ exists w',
       placeCaretAtHorizontalEdge c isReverse w = Returns tt w'
       /\ zIndex w' = zIndex w /\ view w' = view w.
Proof.
  intros H. split; [apply placeCaretAtVerticalEdge_direct; exact H|].
  exists (placedHorizontally w c isReverse).
  split; [apply placeCaretAtHorizontalEdge_run|].
  apply placedHorizontally_frame.
Qed.

(** *** What placement leaves behind *)

Lemma containerKind_editable d c :
  editable d c = true -> containerKind d c <> NotEditable.
Proof.
  unfold containerKind, editable.
  destruct (elementAt d c) as [el|]; simpl; [|discriminate].
  intros ->. destruct (_ || _); discriminate.
Qed.

Lemma placedHorizontally_caret w c isReverse :
  match containerKind (document w) c with
  | RichEditable => oneCaretInside c (placedHorizontally w c isReverse)
  | SimpleInput =>
      fst (selectionOf (placedHorizontally w c isReverse) c)
      = snd (selectionOf (placedHorizontally w c isReverse) c)
      /\ selection (placedHorizontally w c isReverse) = selection w
  | NotEditable => selection (placedHorizontally w c isReverse) = selection w
  end.
Proof.
  unfold placedHorizontally. destruct (containerKind (document w) c).
  - rewrite selectionOf_insert. auto.
  - eexists. split; [reflexivity|]. split; [apply collapsed_caretAt|].
    apply contains_refl.
  - reflexivity.
Qed.

Lemma placeCaretAtVerticalEdge_caret d c isReverse given :
  forall mayUseScroll w w',
    placeCaretAtVerticalEdge d c isReverse given mayUseScroll w = Returns tt w' ->
    match containerKind (document w) c with
    | RichEditable => oneCaretInside c w'
    | SimpleInput =>
        editable (document w) c = false ->
        fst (selectionOf w' c) = snd (selectionOf w' c)
        /\ selection w' = selection w
    | NotEditable => selection w' = selection w
    end.
Proof.
  induction d as [|d IH]; intros mayUseScroll w w' H; [discriminate H|].
  assert (Hdirect :
    placeCaretAtHorizontalEdge c isReverse w = Returns tt w' ->
    match containerKind (document w) c with
    | RichEditable => oneCaretInside c w'
    | SimpleInput =>
        editable (document w) c = false ->
        fst (selectionOf w' c) = snd (selectionOf w' c)
        /\ selection w' = selection w
    | NotEditable => selection w' = selection w
    end).
  { rewrite placeCaretAtHorizontalEdge_run. intros [= <-].
    pose proof (placedHorizontally_caret w c isReverse) as Hc. revert Hc.
    destruct (containerKind (document w) c); auto. }
  destruct given as [given|].
  2: { rewrite placeCaretAtVerticalEdge_direct in H by auto. exact (Hdirect H). }
  destruct (editable (document w) c) eqn:Hed.
  2: { rewrite placeCaretAtVerticalEdge_direct in H by auto. exact (Hdirect H). }
  clear Hdirect. pose proof (containerKind_editable _ _ Hed) as Hne.
  destruct (containerKind (document w) c) eqn:Hk;
    [intros Hf; discriminate Hf | | contradiction].
  rewrite placeCaretAtVerticalEdge_step, resolvePoint_run in H by exact Hed.
  destruct (resolution _ _ _ _) as [o|e] eqn:Hp; [|discriminate H].
  destruct (inside c o) as [r|] eqn:Hin.
  - injection H as <-. apply inside_Some in Hin as [-> Hcont].
    exists r. split; [reflexivity|]. split; [|exact Hcont].
    eapply pointRange_collapsed, Hp.
  - destruct mayUseScroll.
    + apply IH in H. cbn [scrolled restored set_view set_zIndex document] in H.
      rewrite Hk in H. exact H.
    + rewrite placeCaretAtHorizontalEdge_run in H. injection H as <-.
      pose proof (placedHorizontally_caret (restored c w) c isReverse) as Hc.
      cbn [restored set_zIndex document] in Hc. rewrite Hk in Hc. exact Hc.
Qed.

(** C6, as the code has it.  After either placement returns: on a rich
    editable region the document's selection is exactly one collapsed
    range that starts inside the container; on a simple input that is not
    content editable the input's own selection is collapsed.  On a
    container that is neither, the code sets no selection. *)
Theorem placeCaret_selection_after c isReverse w w' :
  (placeCaretAtHorizontalEdge c isReverse w = Returns tt w'
   \/ exists d given mayUseScroll,
        placeCaretAtVerticalEdge d c isReverse given mayUseScroll w = Returns tt w') ->
  match containerKind (document w) c with
  | RichEditable => oneCaretInside c w'
  | SimpleInput =>
      editable (document w) c = false ->
      fst (selectionOf w' c) = snd (selectionOf w' c)
  | NotEditable => True
  end.
Proof.
  intros [H|(d & given & mayUseScroll & H)].
  - rewrite placeCaretAtHorizontalEdge_run in H. injection H as <-.
    pose proof (placedHorizontally_caret w c isReverse) as Hc. revert Hc.
    destruct (containerKind (document w) c); [intros [Hc _] _; exact Hc | auto | auto].
  - apply placeCaretAtVerticalEdge_caret in H. revert H.
    destruct (containerKind (document w) c);
      [intros Hc Hed; exact (proj1 (Hc Hed)) | auto | auto].
Qed.

(** *** Placing twice *)

Ltac unfold_worlds :=
  unfold placedHorizontally, caretSet, restored, scrolled, raised,
    set_selection, set_textSelection, set_activeElement, set_zIndex, set_view in *;
  cbn [document selection textSelection activeElement zIndex view] in *.

Lemma placedHorizontally_idem w c isReverse :
  placedHorizontally (placedHorizontally w c isReverse) c isReverse
  = placedHorizontally w c isReverse.
Proof.
  unfold placedHorizontally at 2.
  destruct (containerKind (document w) c) eqn:Hk; unfold_worlds; rewrite Hk;
    rewrite ?insert_insert_eq; reflexivity.
Qed.

Lemma restored_idem c w : restored c (restored c w) = restored c w.
Proof. unfold_worlds. rewrite delete_delete_eq. reflexivity. Qed.

Lemma restored_scrolled c a w :
  restored c (scrolled c a w) = scrolled c a (restored c w).
Proof. reflexivity. Qed.

Lemma restored_caretSet c r w :
  restored c (caretSet c r w) = caretSet c r (restored c w).
Proof. reflexivity. Qed.

Lemma restored_placedHorizontally c isReverse w :
  restored c (placedHorizontally w c isReverse)
  = placedHorizontally (restored c w) c isReverse.
Proof.
  unfold placedHorizontally, restored at 2. cbn [document set_zIndex].
  destruct (containerKind (document w) c); reflexivity.
Qed.

Lemma scrolled_placedHorizontally c a isReverse w :
  scrolled c a (placedHorizontally w c isReverse)
  = placedHorizontally (scrolled c a w) c isReverse.
Proof.
  unfold placedHorizontally, scrolled at 2. cbn [document set_view].
  destruct (containerKind (document w) c); reflexivity.
Qed.

Lemma scrolled_caretSet c a r w :
  scrolled c a (caretSet c r w) = caretSet c r (scrolled c a w).
Proof. reflexivity. Qed.

Lemma caretSet_idem c r w : caretSet c r (caretSet c r w) = caretSet c r w.
Proof. reflexivity. Qed.

Lemma resolution_restored c isReverse given w :
  resolution c isReverse given (restored c w) = resolution c isReverse given w.
Proof.
  unfold resolution, targetY. unfold_worlds. rewrite insert_delete_eq. reflexivity.
Qed.

Lemma resolution_caretSet c isReverse given r w :
  resolution c isReverse given (caretSet c r w) = resolution c isReverse given w.
Proof. reflexivity. Qed.

Lemma resolution_placedHorizontally c isReverse given w :
  resolution c isReverse given (placedHorizontally w c isReverse)
  = resolution c isReverse given w.
Proof.
  unfold resolution, targetY.
  destruct (placedHorizontally_frame w c isReverse) as (_ & -> & ->). reflexivity.
Qed.

Lemma editable_placedHorizontally w c isReverse :
  editable (document (placedHorizontally w c isReverse)) c = editable (document w) c.
Proof. rewrite (proj1 (placedHorizontally_frame _ _ _)). reflexivity. Qed.

Lemma placeCaretAtVerticalEdge_noscroll_idem d c isReverse given w w1 :
  placeCaretAtVerticalEdge d c isReverse given false w = Returns tt w1 ->
  placeCaretAtVerticalEdge d c isReverse given false w1 = Returns tt w1.
Proof.
  destruct d as [|d]; [intros H; discriminate H|]. intros H.
  destruct given as [given|].
  2: { rewrite placeCaretAtVerticalEdge_direct in * by auto.
       rewrite placeCaretAtHorizontalEdge_run in *. injection H as <-.
       rewrite placedHorizontally_idem. reflexivity. }
  destruct (editable (document w) c) eqn:Hed.
  2: { rewrite placeCaretAtVerticalEdge_direct in H by auto.
       rewrite placeCaretAtHorizontalEdge_run in H. injection H as <-.
       rewrite placeCaretAtVerticalEdge_direct.
       - rewrite placeCaretAtHorizontalEdge_run, placedHorizontally_idem. reflexivity.
       - right. rewrite editable_placedHorizontally. exact Hed. }
  rewrite placeCaretAtVerticalEdge_step, resolvePoint_run in H by exact Hed.
  destruct (resolution _ _ _ _) as [o|e] eqn:Hp; [|discriminate H].
  destruct (inside c o) as [r|] eqn:Hin.
  - injection H as <-.
    rewrite placeCaretAtVerticalEdge_step, resolvePoint_run by exact Hed.
    rewrite resolution_caretSet, resolution_restored, Hp, Hin.
    rewrite restored_caretSet, restored_idem. reflexivity.
  - rewrite placeCaretAtHorizontalEdge_run in H. injection H as <-.
    rewrite placeCaretAtVerticalEdge_step, resolvePoint_run
      by (rewrite editable_placedHorizontally; exact Hed).
    rewrite resolution_placedHorizontally, resolution_restored, Hp, Hin.
    rewrite restored_placedHorizontally, restored_idem.
    rewrite placeCaretAtHorizontalEdge_run, placedHorizontally_idem. reflexivity.
Qed.

(** C9. Given that scrolling a node into view twice in a row is the same
    as doing it once, a second [placeCaretAtVerticalEdge] with the same
    arguments, right after one that returned, returns too and leaves the
    world, hence the selection of the document and that of the container,
    as the first call left it. *)
Theorem placeCaretAtVerticalEdge_idempotent d c isReverse given mayUseScroll w w1 :
  (forall v n a,
     scrollIntoView P (scrollIntoView P v n a) n a = scrollIntoView P v n a) ->
  placeCaretAtVerticalEdge d c isReverse given mayUseScroll w = Returns tt w1 ->
  exists w2,
    placeCaretAtVerticalEdge d c isReverse given mayUseScroll w1 = Returns tt w2
    /\ w2 = w1
    /\ selection w2 = selection w1
    /\ selectionOf w2 c = selectionOf w1 c.
Proof.
  intros Hscroll H.
  enough (placeCaretAtVerticalEdge d c isReverse given mayUseScroll w1 = Returns tt w1)
    by (exists w1; auto).
  destruct mayUseScroll; [|eapply placeCaretAtVerticalEdge_noscroll_idem, H].
  assert (Hscrolled : forall x : World P,
            scrolled c isReverse (scrolled c isReverse x) = scrolled c isReverse x).
  { intros x. unfold scrolled, set_view. cbn [view]. rewrite Hscroll. reflexivity. }
  destruct d as [|d]; [discriminate H|].
  destruct given as [given|].
  2: { rewrite placeCaretAtVerticalEdge_direct in * by auto.
       rewrite placeCaretAtHorizontalEdge_run in *. injection H as <-.
       rewrite placedHorizontally_idem. reflexivity. }
  destruct (editable (document w) c) eqn:Hed.
  2: { rewrite placeCaretAtVerticalEdge_direct in H by auto.
       rewrite placeCaretAtHorizontalEdge_run in H. injection H as <-.
       rewrite placeCaretAtVerticalEdge_direct.
       - rewrite placeCaretAtHorizontalEdge_run, placedHorizontally_idem. reflexivity.
       - right. rewrite editable_placedHorizontally. exact Hed. }
  rewrite placeCaretAtVerticalEdge_step, resolvePoint_run in H by exact Hed.
  destruct (resolution _ _ _ _) as [o|e] eqn:Hp; [|discriminate H].
  destruct (inside c o) as [r|] eqn:Hin.
  - injection H as <-.
    rewrite placeCaretAtVerticalEdge_step, resolvePoint_run by exact Hed.
    rewrite resolution_caretSet, resolution_restored, Hp, Hin.
    rewrite restored_caretSet, restored_idem. reflexivity.
  - pose proof (placeCaretAtVerticalEdge_noscroll_idem _ _ _ _ _ _ H) as Hagain.
    destruct d as [|d]; [discriminate H|].
    set (wS := scrolled c isReverse (restored c w)) in *.
    assert (HedS : editable (document wS) c = true) by exact Hed.
    rewrite placeCaretAtVerticalEdge_step, resolvePoint_run in H by exact HedS.
    destruct (resolution c isReverse given wS) as [o'|e'] eqn:Hp'; [|discriminate H].
    destruct (inside c o') as [r'|] eqn:Hin'.
    + injection H as <-.
      rewrite placeCaretAtVerticalEdge_step, resolvePoint_run by exact Hed.
      rewrite resolution_caretSet, resolution_restored, Hp', Hin'.
      rewrite restored_caretSet, restored_idem. reflexivity.
    + rewrite placeCaretAtHorizontalEdge_run in H. injection H as <-.
      rewrite placeCaretAtVerticalEdge_step, resolvePoint_run
        by (rewrite editable_placedHorizontally; exact Hed).
      rewrite resolution_placedHorizontally, resolution_restored, Hp', Hin'.
      rewrite restored_placedHorizontally, restored_idem,
        scrolled_placedHorizontally.
      replace (scrolled c isReverse (restored c wS)) with (restored c wS).
      * exact Hagain.
      * unfold wS. rewrite restored_scrolled, restored_idem, Hscrolled. reflexivity.
Qed.

End CaretFacts.

(** ** The claims on the sample page *)

(** C1. [isHorizontalEdge] measures the end of the caret's node by the
    length of its text content, also when the node is an element, whose
    offsets count children.  With the caret at the end of the sample
    region, offset 2 of a container with two children, the caret is at the
    forward edge as stated (collapsed, at the end of its node, the node
    being the container itself), and the code answers [false]. *)
Theorem isHorizontalEdge_misses_node_end :
  atHorizontalEdgeStated (world webkit true [caretAt theEditable 2]) theEditable false
  /\ isHorizontalEdge theEditable false (world webkit true [caretAt theEditable 2])
     = Returns false (world webkit true [caretAt theEditable 2]).
Proof.
  split; [|vm_compute; reflexivity].
  unfold atHorizontalEdgeStated.
  replace (containerKind (document (world webkit true [caretAt theEditable 2]))
             theEditable) with RichEditable by reflexivity.
  exists (caretAt theEditable 2), [].
  split; [reflexivity|]. split; [reflexivity|]. split; [reflexivity|].
  apply chain_here.
Qed.

(** C5. The two edge queries hand back the world they were given, whether
    they return or throw: selection, text-control selections and all the
    rest are as before.  The placements do change the selection. *)
Theorem edge_queries_read_only :
  (forall (P : Platform) (c : NodeId) (isReverse : bool),
      readOnly (P := P) (isHorizontalEdge c isReverse)
      /\ readOnly (P := P) (getVerticalEdge c isReverse))
  /\ (exists w w' : World webkit,
        placeCaretAtHorizontalEdge theEditable true w = Returns tt w'
        /\ selection w' <> selection w)
  /\ (exists w w' : World webkit,
        placeCaretAtVerticalEdge 2 theEditable false (Some (box 0 20)) true w
        = Returns tt w'
        /\ selection w' <> selection w).
Proof.
  split; [|split].
  - intros P c isReverse. split.
    + apply readOnly_isHorizontalEdge.
    + apply readOnly_getVerticalEdge.
  - exists (world webkit false []). eexists.
    split; [apply placeCaretAtHorizontalEdge_run|]. vm_compute. discriminate.
  - exists (world webkit false []). eexists.
    split; [vm_compute; reflexivity|]. vm_compute. discriminate.
Qed.

(** C7. Two calls that throw.  With the caret at the end of the last text
    of the document, outside the container, the forward walk of
    [isHorizontalEdge] climbs to the document and reads a child of its
    [null] parent.  Where only [caretPositionFromPoint] exists and it finds
    no position, the polyfill reads [offsetNode] of [null], and
    [placeCaretAtVerticalEdge] throws with the z-index still raised. *)
Theorem edge_and_placement_throw :
  isHorizontalEdge theEditable false (world webkit false [caretAt textXYZ 3])
  = Throws TypeError (world webkit false [caretAt textXYZ 3])
  /\ placeCaretAtVerticalEdge 2 theEditable false (Some (box 0 20)) true
       (world gecko tt [])
     = Throws TypeError (raised theEditable (world gecko tt [])).
Proof. split; vm_compute; reflexivity. Qed.

(** *** The edges of the sample page *)

Example input_at_start :
  isHorizontalEdge theInput true (inputWorld 0 0) = Returns true (inputWorld 0 0).
Proof. vm_compute. reflexivity. Qed.

Example input_at_end :
  isHorizontalEdge theInput false (inputWorld 5 5) = Returns true (inputWorld 5 5).
Proof. vm_compute. reflexivity. Qed.

Example input_in_the_middle :
  isHorizontalEdge theInput true (inputWorld 2 2) = Returns false (inputWorld 2 2)
  /\ isHorizontalEdge theInput false (inputWorld 2 2) = Returns false (inputWorld 2 2).
Proof. split; vm_compute; reflexivity. Qed.

Example input_vertical_mirrors_horizontal :
  getVerticalEdge theInput false (inputWorld 5 5)
  = Returns {| isEdge := true; rect := None |} (inputWorld 5 5).
Proof. vm_compute. reflexivity. Qed.

Example input_placed_then_read :
  bind (placeCaretAtHorizontalEdge theInput true)
    (fun _ => bind (selectionStart webkit theInput)
       (fun s => bind (selectionEnd webkit theInput) (fun e => ret (s, e))))
    (inputWorld 2 4)
  = Returns (0, 0) (placedHorizontally (inputWorld 2 4) theInput true).
Proof. vm_compute. reflexivity. Qed.

Example not_editable_is_at_edge :
  isHorizontalEdge theSection true (world webkit false [caretAt textAB 1])
  = Returns true (world webkit false [caretAt textAB 1])
  /\ isHorizontalEdge theSection false (world webkit false [caretAt textAB 1])
     = Returns true (world webkit false [caretAt textAB 1]).
Proof. split; vm_compute; reflexivity. Qed.

(** In the rich region the caret before "ab" is at the reverse edge, the
    one after "cd" at the forward edge, the one after "ab" at neither. *)
Example rich_edges :
  isHorizontalEdge theEditable true (world webkit true [caretAt textAB 0])
  = Returns true (world webkit true [caretAt textAB 0])
  /\ isHorizontalEdge theEditable false (world webkit true [caretAt textCD 2])
     = Returns true (world webkit true [caretAt textCD 2])
  /\ isHorizontalEdge theEditable true (world webkit true [caretAt textAB 2])
     = Returns false (world webkit true [caretAt textAB 2])
  /\ isHorizontalEdge theEditable false (world webkit true [caretAt textAB 2])
     = Returns false (world webkit true [caretAt textAB 2]).
Proof. repeat split; vm_compute; reflexivity. Qed.

(** A call that has to scroll does need the second level: with depth 1
    it runs out. *)
Example retry_needs_depth_two :
  placeCaretAtVerticalEdge 1 theEditable false (Some (box 0 20)) true
    (world webkit false [])
  = OutOfDepth.
Proof. vm_compute. reflexivity. Qed.

(** *** Counterexamples *)

(** C6 as stated fails on a container that is neither an input nor content
    editable: with no range selected beforehand, the placement returns,
    having only focused it, and the document still has no range. *)
Lemma placement_leaves_no_caret :
  placeCaretAtHorizontalEdge theSection true (world webkit false [])
  = Returns tt (set_activeElement (Some theSection) (world webkit false []))
  /\ ~ oneCaretInside theSection
         (set_activeElement (Some theSection) (world webkit false [])).
Proof.
  split; [vm_compute; reflexivity|].
  intros (r & Hsel & _). discriminate Hsel.
Qed.

(** *** Instances *)

Lemma getVerticalEdge_rich_witness :
  exists b,
    getVerticalEdge theEditable false (world webkit true [caretAt textCD 2])
    = Returns {| isEdge := b; rect := Some (box 20 40) |}
        (world webkit true [caretAt textCD 2])
    /\ (b = true <-> nearEdgeWithinBuffer false (box 20 40) (box 0 40)).
Proof.
  exact (getVerticalEdge_rich (P := webkit) theEditable false
           (world webkit true [caretAt textCD 2]) eq_refl).
Defined.

Lemma getVerticalEdge_caretRect_fallback_witness :
  (exists info,
     getVerticalEdge theEditable true (world webkit true [caretAt theEditable 0])
     = Returns info (world webkit true [caretAt theEditable 0])
     /\ rect info
        = caretRect_fallback (world webkit true [caretAt theEditable 0])
            (caretAt theEditable 0))
  /\ caretRect_fallback (world webkit true [caretAt theEditable 0])
       (caretAt theEditable 0)
     = Some (box 0 40).
Proof.
  split; [|reflexivity].
  exact (getVerticalEdge_caretRect_fallback (P := webkit) theEditable true
           (world webkit true [caretAt theEditable 0]) (caretAt theEditable 0) []
           eq_refl eq_refl eq_refl (fun _ => eq_refl)).
Defined.

Lemma placeCaretAtVerticalEdge_bounded_retry_witness :
  placeCaretAtVerticalEdge 2 theEditable false (Some (box 0 20)) true
    (world webkit false [])
  = placeCaretAtVerticalEdge 1 theEditable false (Some (box 0 20)) false
      (scrolled theEditable false (restored theEditable (world webkit false []))).
Proof.
  exact (proj2 (proj2 (proj2 (proj2
           (placeCaretAtVerticalEdge_bounded_retry (P := webkit) theEditable false
              (Some (box 0 20)) true (world webkit false []))))) 
           (box 0 20) None eq_refl eq_refl eq_refl eq_refl 1).
Defined.

Lemma placeCaretAtVerticalEdge_delegates_witness :
  placeCaretAtVerticalEdge 1 theEditable true None true (world webkit false [])
  = placeCaretAtHorizontalEdge theEditable true (world webkit false [])
  /\ exists w',
       placeCaretAtHorizontalEdge theEditable true (world webkit false [])
       = Returns tt w'
       /\ zIndex w' = zIndex (world webkit false [])
       /\ view w' = view (world webkit false []).
Proof.
  exact (placeCaretAtVerticalEdge_delegates (P := webkit) 0 theEditable true None true
           (world webkit false []) (or_introl eq_refl)).
Defined.

Lemma placeCaret_selection_after_witness :
  oneCaretInside theEditable
    (caretSet theEditable (caretAt textCD 1)
       (scrolled theEditable false (restored theEditable (world webkit false [])))).
Proof.
  exact (placeCaret_selection_after (P := webkit) theEditable false
           (world webkit false []) _
           (or_intror
              (ex_intro _ 2 (ex_intro _ (Some (box 0 20)) (ex_intro _ true eq_refl))))).
Defined.

Lemma placeCaretAtVerticalEdge_idempotent_witness :
  exists w2,
    placeCaretAtVerticalEdge 2 theEditable false (Some (box 0 20)) true
      (caretSet theEditable (caretAt textCD 1)
         (scrolled theEditable false (restored theEditable (world webkit false []))))
    = Returns tt w2
    /\ w2 = caretSet theEditable (caretAt textCD 1)
              (scrolled theEditable false (restored theEditable (world webkit false [])))
    /\ selection w2 = [caretAt textCD 1]
    /\ selectionOf w2 theEditable = (0, 0).
Proof.
  exact (placeCaretAtVerticalEdge_idempotent (P := webkit) 2 theEditable false
           (Some (box 0 20)) true (world webkit false []) _
           (fun _ _ _ => eq_refl) eq_refl).
Defined.

(** ** Further facts about the caret functions *)

Section CaretMore.

Context {P : Platform}.
Implicit Types (w : World P) (c n : NodeId) (isReverse : bool).

(** [isHorizontalEdge], case by case. *)
Lemma isHorizontalEdge_run c isReverse w :
  isHorizontalEdge c isReverse w =
  match containerKind (document w) c with
  | SimpleInput =>
      Returns
        ((fst (selectionOf w c) =? snd (selectionOf w c))
         && (if isReverse then fst (selectionOf w c) =? 0
             else valueLength (document w) c =? fst (selectionOf w c))) w
  | NotEditable => Returns true w
  | RichEditable =>
      match selection w with
      | [] => Returns false w
      | r :: _ =>
          if negb (collapsed r) then Returns false w
          else if isReverse then
            (if startOffset r =? 0 then climb true c (startContainer r) w
             else Returns false w)
          else
            match textContentOf (document w) (startContainer r) with
            | None => Throws TypeError w
            | Some text =>
                if endOffset r =? String.length text
                then climb false c (startContainer r) w
                else Returns false w
            end
      end
  end.
Proof.
  unfold isHorizontalEdge, containerKind, tagName, value, selectionStart,
    selectionEnd, isContentEditable, editable, firstRange, textContent,
    valueLength, includes.
  rewrite bind_gets.
  destruct (elementAt (document w) c) as [el|] eqn:Hel; cbn [fmap option_fmap option_map from_option].
  2: { rewrite bind_gets, Hel. reflexivity. }
  cbn [existsb]. rewrite !orb_false_r, (String.eqb_sym (el_tagName el) "INPUT"),
    (String.eqb_sym (el_tagName el) "TEXTAREA").
  destruct (_ || _).
  - rewrite !bind_gets.
    destruct (fst (selectionOf w c) =? snd (selectionOf w c)); cbn [negb andb];
      [|reflexivity].
    destruct isReverse; [reflexivity|].
    rewrite bind_gets, Hel. reflexivity.
  - rewrite bind_gets, Hel. cbn [from_option].
    destruct (el_isContentEditable el); cbn [negb]; [|reflexivity].
    rewrite bind_gets. destruct (selection w) as [|r rest]; [reflexivity|].
    destruct (collapsed r); cbn [negb]; [|reflexivity].
    destruct isReverse; cbn [negb andb].
    + destruct (startOffset r =? 0); cbn [negb]; [|reflexivity].
      rewrite bind_ret. reflexivity.
    + rewrite bind_assoc, bind_gets.
      destruct (textContentOf (document w) (startContainer r)) as [text|];
        [|reflexivity].
      cbn [deref]. rewrite bind_assoc, !bind_ret.
      destruct (endOffset r =? String.length text); reflexivity.
Qed.

Lemma containerKind_tests d c :
  match containerKind d c with
  | SimpleInput => includes ["INPUT"; "TEXTAREA"] (el_tagName <$> elementAt d c) = true
  | RichEditable =>
      includes ["INPUT"; "TEXTAREA"] (el_tagName <$> elementAt d c) = false
      /\ editable d c = true
  | NotEditable =>
      includes ["INPUT"; "TEXTAREA"] (el_tagName <$> elementAt d c) = false
      /\ editable d c = false
  end.
Proof.
  unfold containerKind, editable, includes.
  destruct (elementAt d c) as [el|]; cbn [fmap option_fmap option_map from_option];
    [|auto].
  destruct (existsb _ _); [reflexivity|].
  destruct (el_isContentEditable el); auto.
Qed.

(** With the caret in a node of the container, [isHorizontalEdge] answers:
    it does not throw, whatever the kind of container and the direction. *)
Theorem isHorizontalEdge_returns_within c isReverse w :
  caretWithin (document w) c (selection w) ->
  exists b, isHorizontalEdge c isReverse w = Returns b w.
Proof.
  intros Hin. rewrite isHorizontalEdge_run.
  destruct (containerKind (document w) c); try (eexists; reflexivity).
  destruct (selection w) as [|r rest]; [eexists; reflexivity|].
  destruct Hin as [Hc [text Ht]].
  destruct (negb (collapsed r)); [eexists; reflexivity|].
  destruct isReverse.
  - destruct (startOffset r =? 0); [|eexists; reflexivity].
    apply climb_inside, Hc.
  - rewrite Ht. destruct (endOffset r =? String.length text); [|eexists; reflexivity].
    apply climb_inside, Hc.
Qed.

(** On a rich editable region [isHorizontalEdge] answers [true] only for a
    caret that is inside the container. *)
Theorem isHorizontalEdge_true_inside c isReverse w :
  containerKind (document w) c = RichEditable ->
  isHorizontalEdge c isReverse w = Returns true w ->
  exists r rest,
    selection w = r :: rest /\ collapsed r = true
    /\ contains c (startContainer r) = true.
Proof.
  intros Hk. rewrite isHorizontalEdge_run, Hk.
  destruct (selection w) as [|r rest]; [intros H; discriminate H|].
  destruct (collapsed r) eqn:Hcol; cbn [negb]; [|intros H; discriminate H].
  intros H. exists r, rest. split; [reflexivity|]. split; [exact Hcol|].
  destruct (contains c (startContainer r)) eqn:Hc; [reflexivity|].
  assert (Hclimb : forall dir, climb dir c (startContainer r) w <> Returns true w).
  { intros dir. destruct (climb_outside dir c (startContainer r) w Hc) as [-> | ->];
      discriminate. }
  destruct isReverse.
  - destruct (startOffset r =? 0); [|discriminate H]. exfalso. eapply Hclimb, H.
  - destruct (textContentOf _ _) as [text|]; [|discriminate H].
    destruct (endOffset r =? String.length text); [|discriminate H].
    exfalso. eapply Hclimb, H.
Qed.

(** On a simple input the caret is at both horizontal edges at once
    exactly when the text is empty and the selection is collapsed at 0. *)
Theorem isHorizontalEdge_input_both c w :
  containerKind (document w) c = SimpleInput ->
  (isHorizontalEdge c true w = Returns true w
   /\ isHorizontalEdge c false w = Returns true w)
  <-> (selectionOf w c = (0, 0) /\ valueLength (document w) c = 0).
Proof.
  intros Hk. rewrite !isHorizontalEdge_run, Hk.
  destruct (selectionOf w c) as [s e]. cbn [fst snd].
  rewrite !Returns_true_iff, !andb_true_iff, !Nat.eqb_eq.
  split.
  - intros [[-> ->] [_ H0]]. auto.
  - intros [[= -> ->] ->]. auto.
Qed.

(** [getVerticalEdge] never throws; and it hands back a rectangle only on
    a rich editable region whose selection starts with a collapsed range. *)
Theorem getVerticalEdge_returns c isReverse w :
  exists info,
    getVerticalEdge c isReverse w = Returns info w
    /\ match rect info with
       | None => True
       | Some _ =>
           containerKind (document w) c = RichEditable
           /\ exists r rest, selection w = r :: rest /\ collapsed r = true
       end.
Proof.
  pose proof (containerKind_tests (document w) c) as Ht.
  destruct (containerKind (document w) c) eqn:Hk.
  - unfold getVerticalEdge, tagName. rewrite bind_gets, Ht.
    pose proof (isHorizontalEdge_run c isReverse w) as Hrun. rewrite Hk in Hrun.
    rewrite (bind_run _ _ _ _ _ Hrun). eexists. split; [reflexivity|exact I].
  - destruct (selection w) as [|r rest] eqn:Hsel.
    { destruct Ht as [Htag Hed].
      unfold getVerticalEdge, tagName, isContentEditable, firstRange.
      rewrite bind_gets, Htag, bind_gets, Hed. cbn [negb].
      rewrite bind_gets, Hsel. eexists. split; [reflexivity|exact I]. }
    destruct (collapsed r) eqn:Hcol.
    + rewrite (getVerticalEdge_collapsed c isReverse w r rest Hk Hsel Hcol).
      destruct (caretRect w r); eexists; (split; [reflexivity|]); cbn [rect noEdge];
        [|exact I].
      split; [reflexivity|]. exists r, rest. auto.
    + destruct Ht as [Htag Hed].
      unfold getVerticalEdge, tagName, isContentEditable, firstRange.
      rewrite bind_gets, Htag, bind_gets, Hed. cbn [negb].
      rewrite bind_gets, Hsel, Hcol. eexists. split; [reflexivity|exact I].
  - destruct Ht as [Htag Hed].
    unfold getVerticalEdge, tagName, isContentEditable.
    rewrite bind_gets, Htag, bind_gets, Hed. eexists. split; [reflexivity|exact I].
Qed.

(** *** Placing, then asking *)

Lemma climb_here isReverse c w : climb isReverse c c w = Returns true w.
Proof. apply climb_true_iff. apply chain_here. Qed.

Lemma containerKind_placedHorizontally w c isReverse :
  containerKind (document (placedHorizontally w c isReverse)) c
  = containerKind (document w) c.
Proof. rewrite (proj1 (placedHorizontally_frame _ _ _)). reflexivity. Qed.

Lemma containerKind_rich_text d c :
  containerKind d c = RichEditable -> exists text, textContentOf d c = Some text.
Proof.
  unfold containerKind, textContentOf, elementAt.
  destruct (nodeAt d c) as [[[|el|data] ks]|]; try discriminate.
  intros _. eexists. reflexivity.
Qed.

(** After [placeCaretAtHorizontalEdge] with [isReverse] true,
    [isHorizontalEdge] with [isReverse] true answers [true], on every kind
    of container. *)
Theorem place_then_detect_reverse c w :
  exists w',
    placeCaretAtHorizontalEdge c true w = Returns tt w'
    /\ isHorizontalEdge c true w' = Returns true w'.
Proof.
  exists (placedHorizontally w c true).
  split; [apply placeCaretAtHorizontalEdge_run|].
  rewrite isHorizontalEdge_run, containerKind_placedHorizontally.
  unfold placedHorizontally.
  destruct (containerKind (document w) c).
  - rewrite selectionOf_insert. reflexivity.
  - cbn [selection set_activeElement set_selection].
    rewrite collapsed_caretAt. cbn [negb caretAt startOffset startContainer Nat.eqb].
    apply climb_here.
  - reflexivity.
Qed.

(** The same forward: on a simple input and on a container that is not
    editable the answer is [true]; on a rich editable region the caret is
    placed at the number of the container's children, which
    [isHorizontalEdge] compares with the length of the container's text:
    the answer is [true] exactly when the two numbers are equal. *)
Theorem place_then_detect_forward c w :
  exists w',
    placeCaretAtHorizontalEdge c false w = Returns tt w'
    /\ match containerKind (document w) c with
       | RichEditable =>
           exists text,
             textContentOf (document w) c = Some text
             /\ isHorizontalEdge c false w'
                = Returns (nodeLength (document w) c =? String.length text) w'
       | _ => isHorizontalEdge c false w' = Returns true w'
       end.
Proof.
  exists (placedHorizontally w c false).
  split; [apply placeCaretAtHorizontalEdge_run|].
  rewrite isHorizontalEdge_run, containerKind_placedHorizontally.
  unfold placedHorizontally.
  destruct (containerKind (document w) c) eqn:Hk.
  - rewrite selectionOf_insert. cbn [fst snd document set_textSelection set_activeElement].
    rewrite !Nat.eqb_refl. reflexivity.
  - destruct (containerKind_rich_text _ _ Hk) as [text Ht]. exists text.
    split; [exact Ht|].
    cbn [selection document set_activeElement set_selection].
    rewrite collapsed_caretAt. cbn [negb caretAt endOffset startContainer].
    rewrite Ht. destruct (_ =? _); [apply climb_here | reflexivity].
  - reflexivity.
Qed.

(** A placement overrides an earlier one in the same container: placing
    in direction [a] and then in direction [b] leaves the world that
    placing in direction [b] alone leaves.  With [a = b]: placing twice is
    placing once. *)
Theorem placeCaretAtHorizontalEdge_overrides c a b w :
  exists w1 w2,
    placeCaretAtHorizontalEdge c a w = Returns tt w1
    /\ placeCaretAtHorizontalEdge c b w1 = Returns tt w2
    /\ placeCaretAtHorizontalEdge c b w = Returns tt w2.
Proof.
  exists (placedHorizontally w c a), (placedHorizontally w c b).
  rewrite !placeCaretAtHorizontalEdge_run. split; [reflexivity|].
  split; [|reflexivity]. f_equal.
  unfold placedHorizontally at 1. rewrite containerKind_placedHorizontally.
  unfold placedHorizontally.
  destruct (containerKind (document w) c);
    unfold set_selection, set_textSelection, set_activeElement;
    cbn [document selection textSelection activeElement zIndex view];
    rewrite ?insert_insert_eq; reflexivity.
Qed.


(** *** More on vertical placement *)

Lemma placeCaretAtVerticalEdge_frame d c isReverse given :
  forall mayUseScroll w w',
    placeCaretAtVerticalEdge d c isReverse given mayUseScroll w = Returns tt w' ->
    document w' = document w
    /\ (forall n, n <> c -> zIndex w' !! n = zIndex w !! n)
    /\ (view w' = view w
        \/ (mayUseScroll = true /\ view w' = scrollIntoView P (view w) c isReverse))
    /\ (forall g, given = Some g -> editable (document w) c = true ->
        zIndex w' !! c = None).
Proof.
  induction d as [|d IH]; intros mayUseScroll w w' H; [discriminate H|].
  assert (Hdirect : forall x : World P,
    document (placedHorizontally x c isReverse) = document x
    /\ (forall n, n <> c ->
          zIndex (placedHorizontally x c isReverse) !! n = zIndex x !! n)
    /\ view (placedHorizontally x c isReverse) = view x).
  { intros x. destruct (placedHorizontally_frame x c isReverse) as (-> & -> & ->).
    auto. }
  destruct given as [given|].
  2: { rewrite placeCaretAtVerticalEdge_direct, placeCaretAtHorizontalEdge_run in H
         by auto.
       injection H as <-. destruct (Hdirect w) as (Hd & Hz & Hv).
       repeat split; auto. intros g Hg; discriminate Hg. }
  destruct (editable (document w) c) eqn:Hed.
  2: { rewrite placeCaretAtVerticalEdge_direct, placeCaretAtHorizontalEdge_run in H
         by auto.
       injection H as <-. destruct (Hdirect w) as (Hd & Hz & Hv).
       repeat split; auto. intros g _ Hf; discriminate Hf. }
  rewrite placeCaretAtVerticalEdge_step, resolvePoint_run in H by exact Hed.
  destruct (resolution _ _ _ _) as [o|e]; [|discriminate H].
  destruct (inside c o) as [r|].
  - injection H as <-.
    unfold caretSet, restored, set_selection, set_activeElement, set_zIndex.
    cbn [document zIndex view]. repeat split; auto.
    + intros n Hn. apply lookup_delete_ne. congruence.
    + intros g _ _. apply lookup_delete_eq.
  - destruct mayUseScroll.
    + apply IH in H as (Hd & Hz & Hv & Hc).
      unfold scrolled, restored, set_view, set_zIndex in *.
      cbn [document zIndex view] in *.
      split; [exact Hd|]. split.
      { intros n Hn. rewrite Hz by exact Hn. apply lookup_delete_ne. congruence. }
      split.
      { right. split; [reflexivity|]. destruct Hv as [Hv|[Hf _]]; [exact Hv|discriminate Hf]. }
      intros g _ _. apply (Hc given); [reflexivity | exact Hed].
    + rewrite placeCaretAtHorizontalEdge_run in H. injection H as <-.
      destruct (Hdirect (restored c w)) as (Hd & Hz & Hv).
      unfold restored, set_zIndex in *. cbn [document zIndex view] in *.
      split; [exact Hd|]. split.
      { intros n Hn. rewrite Hz by exact Hn. apply lookup_delete_ne. congruence. }
      split; [left; exact Hv|].
      intros g _ _.
      destruct (placedHorizontally_frame
                  (set_zIndex (delete c (zIndex w)) w) c isReverse) as (_ & Hz' & _).
      unfold set_zIndex in Hz'. cbn [zIndex] in Hz'. rewrite Hz'.
      apply lookup_delete_eq.
Qed.

(** With a rectangle and a content-editable container, a call of
    [placeCaretAtVerticalEdge] that returns has removed the container's
    inline z-index, whatever it was before, and left every other one. *)
Theorem placeCaretAtVerticalEdge_clears_zIndex d c isReverse g mayUseScroll w w' :
  editable (document w) c = true ->
  placeCaretAtVerticalEdge d c isReverse (Some g) mayUseScroll w = Returns tt w' ->
  zIndex w' = delete c (zIndex w).
Proof.
  intros Hed H. apply placeCaretAtVerticalEdge_frame in H as (_ & Hz & _ & Hc).
  apply map_eq. intros n. destruct (decide (n = c)) as [->|Hn].
  - rewrite lookup_delete_eq. apply (Hc g); [reflexivity | exact Hed].
  - rewrite lookup_delete_ne by congruence. apply Hz, Hn.
Qed.


(** On a container that is not an input: when [placeCaretAtVerticalEdge]
    throws, it is the [TypeError] of the polyfill, in a browser without
    [caretRangeFromPoint], and the container is left with the z-index
    10000. *)
Theorem placeCaretAtVerticalEdge_throws_raised d c isReverse given :
  forall mayUseScroll w e w',
    containerKind (document w) c <> SimpleInput ->
    placeCaretAtVerticalEdge d c isReverse given mayUseScroll w = Throws e w' ->
    e = TypeError
    /\ zIndex w' !! c = Some "10000"
    /\ doc_caretRangeFromPoint P = None
    /\ is_Some (doc_caretPositionFromPoint P).
Proof.
  induction d as [|d IH]; intros mayUseScroll w e w' Hk H; [discriminate H|].
  destruct given as [given|].
  2: { rewrite placeCaretAtVerticalEdge_direct, placeCaretAtHorizontalEdge_run in H
         by auto. discriminate H. }
  destruct (editable (document w) c) eqn:Hed.
  2: { rewrite placeCaretAtVerticalEdge_direct, placeCaretAtHorizontalEdge_run in H
         by auto. discriminate H. }
  rewrite placeCaretAtVerticalEdge_step, resolvePoint_run in H by exact Hed.
  destruct (resolution _ _ _ _) as [o|e'] eqn:Hres.
  - destruct (inside c o); [discriminate H|].
    destruct mayUseScroll.
    + eapply IH; [|exact H]. exact Hk.
    + rewrite placeCaretAtHorizontalEdge_run in H. discriminate H.
  - inversion H; subst. destruct e. split; [reflexivity|].
    split; [apply lookup_insert_eq|].
    unfold resolution, pointRange in Hres.
    destruct (doc_caretRangeFromPoint P); [discriminate Hres|].
    destruct (doc_caretPositionFromPoint P); [|discriminate Hres].
    split; [reflexivity | eexists; reflexivity].
Qed.


(** In a browser that has [caretRangeFromPoint], or has neither of the two
    point methods, [placeCaretAtVerticalEdge] returns on every container
    that is not an input, whatever the direction, the rectangle, the
    scroll flag and the state. *)
Theorem placeCaretAtVerticalEdge_returns_native d c isReverse given mayUseScroll w :
  containerKind (document w) c <> SimpleInput ->
  is_Some (doc_caretRangeFromPoint P) \/ doc_caretPositionFromPoint P = None ->
  exists w',
    placeCaretAtVerticalEdge (S (S d)) c isReverse given mayUseScroll w = Returns tt w'.
Proof.
  intros _ Hapi.
  assert (Hres : forall g (x : World P), exists o, resolution c isReverse g x = inl o).
  { intros g x. unfold resolution, pointRange.
    destruct Hapi as [[f ->]| ->]; [eexists; reflexivity|].
    destruct (doc_caretRangeFromPoint P); eexists; reflexivity. }
  destruct given as [g|].
  2: { rewrite placeCaretAtVerticalEdge_direct, placeCaretAtHorizontalEdge_run by auto.
       eexists. reflexivity. }
  destruct (editable (document w) c) eqn:Hed.
  2: { rewrite placeCaretAtVerticalEdge_direct, placeCaretAtHorizontalEdge_run by auto.
       eexists. reflexivity. }
  rewrite placeCaretAtVerticalEdge_step, resolvePoint_run by exact Hed.
  destruct (Hres g w) as [o ->].
  destruct (inside c o); [eexists; reflexivity|].
  destruct mayUseScroll.
  - rewrite placeCaretAtVerticalEdge_step, resolvePoint_run by exact Hed.
    destruct (Hres g (scrolled c isReverse (restored c w))) as [o' ->].
    destruct (inside c o'); [eexists; reflexivity|].
    rewrite placeCaretAtHorizontalEdge_run. eexists. reflexivity.
  - rewrite placeCaretAtHorizontalEdge_run. eexists. reflexivity.
Qed.

(** In a browser with neither point method, vertical placement on a
    content-editable container comes down to horizontal placement: after
    scrolling the container into view when that is allowed, and with the
    container's inline z-index removed. *)
Theorem placeCaretAtVerticalEdge_without_point_api d c isReverse g mayUseScroll w :
  doc_caretRangeFromPoint P = None ->
  doc_caretPositionFromPoint P = None ->
  editable (document w) c = true ->
  placeCaretAtVerticalEdge (S (S d)) c isReverse (Some g) mayUseScroll w
  = placeCaretAtHorizontalEdge c isReverse
      (if mayUseScroll then scrolled c isReverse (restored c w) else restored c w).
Proof.
  intros Hn Hp Hed.
  assert (Hres : forall x : World P, resolution c isReverse g x = inl None).
  { intros x. unfold resolution, pointRange. rewrite Hn, Hp. reflexivity. }
  rewrite placeCaretAtVerticalEdge_step, resolvePoint_run, Hres by exact Hed.
  cbn [inside]. destruct mayUseScroll; [|reflexivity].
  rewrite placeCaretAtVerticalEdge_step, resolvePoint_run, Hres by exact Hed.
  cbn [inside]. rewrite restored_scrolled, restored_idem. reflexivity.
Qed.

(** When the point resolves to a position inside the container, that
    position becomes the one range of the selection and the container is
    focused; nothing is scrolled and no text-control selection changes,
    whatever [mayUseScroll] says. *)
Theorem placeCaretAtVerticalEdge_resolved d c isReverse g mayUseScroll w r :
  editable (document w) c = true ->
  resolvePoint c isReverse g w = Returns (Some r) (raised c w) ->
  contains c (startContainer r) = true ->
  exists w',
    placeCaretAtVerticalEdge (S d) c isReverse (Some g) mayUseScroll w = Returns tt w'
    /\ selection w' = [r] /\ activeElement w' = Some c
    /\ view w' = view w /\ textSelection w' = textSelection w.
Proof.
  intros Hed Hres Hin.
  rewrite placeCaretAtVerticalEdge_step, Hres by exact Hed.
  cbn [inside]. rewrite Hin. eexists. split; [reflexivity|]. auto.
Qed.

(** In a region whose box is at most one and a half carets tall, with the
    caret inside the box, the caret is at the vertical edge in both
    directions: a one-line region is left by arrow up and by arrow down. *)
Theorem getVerticalEdge_single_line c w r rest cr :
  containerKind (document w) c = RichEditable ->
  selection w = r :: rest ->
  collapsed r = true ->
  caretRect w r = Some cr ->
  (r_height cr == r_bottom cr - r_top cr)%Q ->
  (r_top (getBoundingClientRect P (view w) c) <= r_top cr)%Q ->
  (r_bottom cr <= r_bottom (getBoundingClientRect P (view w) c))%Q ->
  (r_bottom (getBoundingClientRect P (view w) c)
   - r_top (getBoundingClientRect P (view w) c) <= (3 # 2) * r_height cr)%Q ->
  forall isReverse,
    getVerticalEdge c isReverse w = Returns {| isEdge := true; rect := Some cr |} w.
Proof.
  intros Hk Hsel Hcol Hcr Hh Htop Hbot Htall isReverse.
  rewrite (getVerticalEdge_collapsed c isReverse w r rest Hk Hsel Hcol), Hcr.
  cbv zeta.
  set (box := getBoundingClientRect P (view w) c) in *.
  assert (Hup : Qgtb (r_top cr - r_height cr / 2) (r_top box) = false)
    by (apply Qgtb_false_iff; unfold Qdiv; change (/ 2)%Q with (1 # 2)%Q; lra).
  assert (Hdown : Qltb (r_bottom cr + r_height cr / 2) (r_bottom box) = false)
    by (apply Qltb_false_iff; unfold Qdiv; change (/ 2)%Q with (1 # 2)%Q; lra).
  destruct isReverse; [rewrite Hup | rewrite Hdown]; reflexivity.
Qed.

End CaretMore.

(** ** isMac and the transient class *)

Lemma append_nil (s : string) : ("" ++ s)%string = s.
Proof. reflexivity. Qed.

Lemma append_cons (c : ascii) (a b : string) :
  (String c a ++ b)%string = String c (a ++ b)%string.
Proof. reflexivity. Qed.

Lemma toLowerCase_app a b :
  toLowerCase (a ++ b) = (toLowerCase a ++ toLowerCase b)%string.
Proof.
  induction a as [|x a IH]; [reflexivity|].
  rewrite append_cons. cbn [toLowerCase]. rewrite append_cons, IH. reflexivity.
Qed.

Lemma toLowerCase_split p x y :
  toLowerCase p = (x ++ y)%string ->
  exists a b, p = (a ++ b)%string /\ toLowerCase a = x /\ toLowerCase b = y.
Proof.
  revert p. induction x as [|cx x IH]; intros p H.
  - exists ""%string, p. auto.
  - destruct p as [|cp p]; [discriminate H|].
    rewrite append_cons in H. cbn [toLowerCase] in H. injection H as Hc Hrest.
    destruct (IH p Hrest) as (a & b & -> & Ha & Hb).
    exists (String cp a), b. cbn [toLowerCase]. rewrite Ha, Hc. auto.
Qed.

Lemma substring_head t post :
  substring 0 (String.length t) (t ++ post) = t.
Proof.
  induction t as [|c t IHt].
  - rewrite append_nil. destruct post; reflexivity.
  - rewrite append_cons. cbn [String.length substring]. rewrite IHt. reflexivity.
Qed.

Lemma substring_occurrence pre t post :
  substring (String.length pre) (String.length t) (pre ++ t ++ post) = t.
Proof.
  induction pre as [|c pre IH].
  - rewrite append_nil. apply substring_head.
  - rewrite append_cons. cbn [String.length substring]. exact IH.
Qed.

Lemma substring_found m t s :
  substring m (String.length t) s = t ->
  t <> ""%string ->
  exists pre post, s = (pre ++ t ++ post)%string /\ String.length pre = m.
Proof.
  revert s. induction m as [|m IH]; intros s H Hne.
  - exists ""%string. revert s H. clear Hne.
    induction t as [|c t IHt]; intros s H.
    + exists s. split; reflexivity.
    + destruct s as [|c' s]; [discriminate H|]. cbn [String.length substring] in H.
      injection H as -> H. destruct (IHt s H) as (post & -> & _).
      exists post. split; reflexivity.
  - destruct s as [|c s].
    + cbn [substring] in H. destruct t; [contradiction | discriminate H].
    + cbn [substring] in H. destruct (IH s H Hne) as (pre & post & -> & <-).
      exists (String c pre), post. split; reflexivity.
Qed.

(** [indexOf] finds the needle exactly when it occurs, and gives the
    position of an occurrence. *)
Lemma indexOf_found s needle :
  needle <> ""%string ->
  (indexOf s needle <> -1)%Z <->
  exists pre post, s = (pre ++ needle ++ post)%string.
Proof.
  intros Hne. unfold indexOf. split.
  - destruct (index 0 needle s) as [m|] eqn:Hi; [intros _ | intros H; contradiction].
    apply index_correct1 in Hi.
    destruct (substring_found m needle s Hi Hne) as (pre & post & -> & _). eauto.
  - intros (pre & post & ->).
    destruct (index 0 needle _) as [m|] eqn:Hi; [lia|].
    exfalso.
    apply (index_correct3 0 (String.length pre) needle _ Hi Hne); [lia|].
    apply substring_occurrence.
Qed.

(** [isMac] answers [true] exactly when the platform string contains the
    letters m, a, c in a row, in upper or lower case. *)
Theorem isMac_iff platform :
  isMac platform = true <->
  exists pre mid post,
    platform = (pre ++ mid ++ post)%string /\ toLowerCase mid = "mac"%string.
Proof.
  unfold isMac. rewrite negb_true_iff, Z.eqb_neq, indexOf_found by discriminate.
  split.
  - intros (x & y & H).
    apply toLowerCase_split in H as (pre & rest & -> & _ & H).
    apply toLowerCase_split in H as (mid & post & -> & Hm & _).
    exists pre, mid, post. auto.
  - intros (pre & mid & post & -> & Hm).
    exists (toLowerCase pre), (toLowerCase post).
    rewrite !toLowerCase_app, Hm. reflexivity.
Qed.

(** The image is transient exactly when its URL starts with "blob:". *)
Theorem isTransient_iff url :
  isTransient url = true <-> exists rest, url = ("blob:" ++ rest)%string.
Proof.
  unfold isTransient, indexOf. rewrite Z.eqb_eq. split.
  - destruct (index 0 "blob:" url) as [m|] eqn:Hi; [|intros H; discriminate H].
    intros H. assert (m = 0) as -> by lia.
    apply index_correct1 in Hi.
    destruct (substring_found 0 "blob:" url Hi) as (pre & post & -> & Hl);
      [discriminate|].
    destruct pre; [|discriminate Hl]. exists post. reflexivity.
  - intros (rest & ->).
    pose proof (substring_occurrence "" "blob:" rest) as Hocc.
    destruct (index 0 "blob:" ("blob:" ++ rest)) as [m|] eqn:Hi.
    + destruct m as [|m]; [reflexivity|]. exfalso.
      apply (index_correct2 0 (S m) "blob:" _ Hi 0); [lia | lia | exact Hocc].
    + exfalso.
      apply (index_correct3 0 0 "blob:" _ Hi); [discriminate | lia | exact Hocc].
Qed.

(** ** The image block *)

Lemma isResizable_false_iff a :
  isResizable a = false <-> a = Str "wide" \/ a = Str "full".
Proof.
  unfold isResizable, arrayIndexOf. destruct a as [|s|q]; cbn [arrayIndexFrom].
  - split; [intros H; discriminate H | intros [H|H]; discriminate H].
  - destruct (String.eqb_spec "wide" s) as [<-|Hw].
    { split; [auto | reflexivity]. }
    destruct (String.eqb_spec "full" s) as [<-|Hf].
    { split; [auto | reflexivity]. }
    split; [intros H; discriminate H | intros [[= H]|[= H]]; congruence].
  - split; [intros H; discriminate H | intros [H|H]; discriminate H].
Qed.

(** [updateAlignment] always sets [align], and it resets the size, with
    [width] and [height] present as [undefined], exactly for the
    alignments under which [render] takes the image as not resizable: the
    strings "wide" and "full".  For any other value, [undefined] included,
    the object has no [width] and no [height]. *)
Theorem updateAlignment_resets_size a :
  updateAlignment a !! "align" = Some a
  /\ (isResizable a = false <-> a = Str "wide" \/ a = Str "full")
  /\ if isResizable a
     then updateAlignment a !! "width" = None
          /\ updateAlignment a !! "height" = None
     else updateAlignment a !! "width" = Some Undefined
          /\ updateAlignment a !! "height" = Some Undefined.
Proof.
  split; [apply lookup_insert_eq|]. split; [apply isResizable_false_iff|].
  unfold updateAlignment. fold (isResizable a).
  destruct (isResizable a); cbn [negb]; split;
    repeat (rewrite lookup_insert_ne by discriminate);
    rewrite ?lookup_insert_eq, ?lookup_empty; reflexivity.
Qed.

(** When [render] shows the resizable box, the alignment is neither "wide"
    nor "full", and the width of the box is a number other than 0: the
    [width] attribute when there is one, the measured width otherwise. *)
Theorem renderImage_box align width height settingsMaxWidth sizes props :
  renderImage align width height settingsMaxWidth sizes = Resizable props ->
  isResizable align = true
  /\ truthy (box_width props) = true
  /\ box_width props
     = (if truthy width then width else imageWidthWithinContainer sizes)
  /\ maxWidth props = settingsMaxWidth.
Proof.
  unfold renderImage.
  destruct (isResizable align); cbn [negb orb]; [|intros H; discriminate H].
  destruct (truthy (imageWidthWithinContainer sizes)) eqn:Hm; cbn [negb];
    [|intros H; discriminate H].
  intros [= <-]. cbn [box_width maxWidth]. unfold orElse.
  split; [reflexivity|]. split; [|split; reflexivity].
  destruct (truthy width) eqn:Hw; assumption.
Qed.

(** For an image of positive natural size, the least size of the resizable
    box is at least 10 in both dimensions and exactly 10 in one of them,
    and both the least and the greatest size have the proportions of the
    image. *)
Theorem renderImage_bounds align width height settingsMaxWidth sizes props :
  (0 < imageWidth sizes)%Q ->
  (0 < imageHeight sizes)%Q ->
  renderImage align width height settingsMaxWidth sizes = Resizable props ->
  (10 <= minWidth props)%Q
  /\ (10 <= minHeight props)%Q
  /\ (minWidth props == 10 \/ minHeight props == 10)%Q
  /\ (minWidth props * imageHeight sizes == minHeight props * imageWidth sizes)%Q
  /\ (maxWidth props * imageHeight sizes == maxHeight props * imageWidth sizes)%Q.
Proof.
  intros Hw Hh. unfold renderImage.
  destruct (negb (isResizable align) || negb (truthy (imageWidthWithinContainer sizes)));
    [intros H; discriminate H|].
  intros [= <-]. cbn [minWidth minHeight maxWidth maxHeight].
  set (iw := imageWidth sizes) in *. set (ih := imageHeight sizes) in *.
  assert (Hw0 : ~ iw == 0) by lra. assert (Hh0 : ~ ih == 0) by lra.
  assert (Hscale : (10 * (iw / ih) * ih == 10 * iw)%Q) by (field; exact Hh0).
  assert (Hinv : (10 / (iw / ih) * iw == 10 * ih)%Q) by (field; split; assumption).
  assert (Hmax : (settingsMaxWidth * ih == settingsMaxWidth / (iw / ih) * iw)%Q)
    by (field; split; assumption).
  assert (Hup : (iw <= ih -> 10 <= 10 / (iw / ih))%Q).
  { intros Hle. apply (Qmult_le_r _ _ iw Hw). rewrite Hinv. lra. }
  assert (Hdown : (ih <= iw -> 10 <= 10 * (iw / ih))%Q).
  { intros Hle. apply (Qmult_le_r _ _ ih Hh). rewrite Hscale. lra. }
  unfold Qltb.
  destruct (Qle_bool ih iw) eqn:H1; destruct (Qle_bool iw ih) eqn:H2; cbn [negb].
  - apply Qle_bool_iff in H1, H2.
    assert (Heq : iw == ih) by lra.
    split; [auto|]. split; [auto|]. split.
    { right. apply (Qmult_inj_r _ _ iw Hw0). rewrite Hinv. lra. }
    split; [rewrite Hscale, Hinv; lra | exact Hmax].
  - apply Qle_bool_iff in H1.
    split; [auto|]. split; [lra|]. split; [right; reflexivity|].
    split; [rewrite Hscale; lra | exact Hmax].
  - apply Qle_bool_iff in H2.
    split; [lra|]. split; [auto|]. split; [left; reflexivity|].
    split; [rewrite Hinv; lra | exact Hmax].
  - exfalso.
    assert (Hn1 : ~ (ih <= iw)%Q) by (rewrite <- Qle_bool_iff, H1; discriminate).
    assert (Hn2 : ~ (iw <= ih)%Q) by (rewrite <- Qle_bool_iff, H2; discriminate).
    lra.
Qed.

(** On the sample page the rich region has two children and four
    characters of text: placed at its forward edge, the caret is not found
    to be there. *)
Example rich_forward_round_trip :
  isHorizontalEdge theEditable false
    (placedHorizontally (world webkit true []) theEditable false)
  = Returns false (placedHorizontally (world webkit true []) theEditable false).
Proof. vm_compute. reflexivity. Qed.

(** ** Instances of the further facts *)

Lemma isHorizontalEdge_returns_within_witness :
  exists b,
    isHorizontalEdge theEditable false (world webkit true [caretAt textCD 1])
    = Returns b (world webkit true [caretAt textCD 1]).
Proof.
  exact (isHorizontalEdge_returns_within (P := webkit) theEditable false
           (world webkit true [caretAt textCD 1])
           (conj eq_refl (ex_intro _ "cd"%string eq_refl))).
Defined.

Lemma isHorizontalEdge_true_inside_witness :
  exists r rest,
    selection (world webkit true [caretAt textCD 2]) = r :: rest
    /\ collapsed r = true
    /\ contains theEditable (startContainer r) = true.
Proof.
  exact (isHorizontalEdge_true_inside (P := webkit) theEditable false
           (world webkit true [caretAt textCD 2]) eq_refl eq_refl).
Defined.

Lemma isHorizontalEdge_input_both_witness :
  (isHorizontalEdge theInput true (inputWorld 0 0) = Returns true (inputWorld 0 0)
   /\ isHorizontalEdge theInput false (inputWorld 0 0) = Returns true (inputWorld 0 0))
  <-> (selectionOf (inputWorld 0 0) theInput = (0, 0)
       /\ valueLength (document (inputWorld 0 0)) theInput = 0).
Proof.
  exact (isHorizontalEdge_input_both (P := webkit) theInput (inputWorld 0 0) eq_refl).
Defined.

Lemma placeCaretAtVerticalEdge_clears_zIndex_witness :
  zIndex
    (caretSet theEditable (caretAt textCD 1)
       (restored theEditable
          (set_zIndex {[ theEditable := "5"%string ]} (world webkit true []))))
  = delete theEditable
      (zIndex (set_zIndex {[ theEditable := "5"%string ]} (world webkit true []))).
Proof.
  exact (placeCaretAtVerticalEdge_clears_zIndex (P := webkit) 1 theEditable false
           (box 0 20) true
           (set_zIndex {[ theEditable := "5"%string ]} (world webkit true [])) _
           eq_refl eq_refl).
Defined.


Lemma placeCaretAtVerticalEdge_throws_raised_witness :
  TypeError = TypeError
  /\ zIndex (raised theEditable (world gecko tt [])) !! theEditable
     = Some "10000"%string
  /\ doc_caretRangeFromPoint gecko = None
  /\ is_Some (doc_caretPositionFromPoint gecko).
Proof.
  refine (placeCaretAtVerticalEdge_throws_raised (P := gecko) 2 theEditable false
            (Some (box 0 20)) true (world gecko tt []) TypeError _ _ eq_refl).
  vm_compute. discriminate.
Defined.

Lemma placeCaretAtVerticalEdge_returns_native_witness :
  exists w',
    placeCaretAtVerticalEdge 2 theEditable true (Some (box 0 20)) true
      (world webkit false [])
    = Returns tt w'.
Proof.
  refine (placeCaretAtVerticalEdge_returns_native (P := webkit) 0 theEditable true
            (Some (box 0 20)) true (world webkit false []) _
            (or_introl (ex_intro _ _ eq_refl))).
  vm_compute. discriminate.
Defined.

Lemma placeCaretAtVerticalEdge_without_point_api_witness :
  placeCaretAtVerticalEdge 2 theEditable true (Some (box 0 20)) true
    (world bare false [])
  = placeCaretAtHorizontalEdge theEditable true
      (scrolled theEditable true (restored theEditable (world bare false []))).
Proof.
  exact (placeCaretAtVerticalEdge_without_point_api (P := bare) 0 theEditable true
           (box 0 20) true (world bare false []) eq_refl eq_refl eq_refl).
Defined.

Lemma placeCaretAtVerticalEdge_resolved_witness :
  exists w',
    placeCaretAtVerticalEdge 1 theEditable false (Some (box 0 20)) false
      (world webkit true [])
    = Returns tt w'
    /\ selection w' = [caretAt textCD 1] /\ activeElement w' = Some theEditable
    /\ view w' = view (world webkit true [])
    /\ textSelection w' = textSelection (world webkit true []).
Proof.
  exact (placeCaretAtVerticalEdge_resolved (P := webkit) 0 theEditable false
           (box 0 20) false (world webkit true []) (caretAt textCD 1)
           eq_refl eq_refl eq_refl).
Defined.

Lemma getVerticalEdge_single_line_witness :
  getVerticalEdge theEditable true (world gecko tt [caretAt theEditable 0])
  = Returns {| isEdge := true; rect := Some (box 0 40) |}
      (world gecko tt [caretAt theEditable 0])
  /\ getVerticalEdge theEditable false (world gecko tt [caretAt theEditable 0])
     = Returns {| isEdge := true; rect := Some (box 0 40) |}
         (world gecko tt [caretAt theEditable 0]).
Proof.
  split;
    apply (getVerticalEdge_single_line (P := gecko) theEditable
             (world gecko tt [caretAt theEditable 0]) (caretAt theEditable 0) []
             (box 0 40)); try reflexivity; vm_compute; discriminate.
Defined.

Lemma renderImage_box_witness :
  isResizable Undefined = true
  /\ truthy (Some 300%Q) = true
  /\ Some 300%Q = (if truthy None then None else Some 300%Q)
  /\ 600%Q = 600%Q.
Proof.
  exact (renderImage_box Undefined None None 600
           {| imageWidthWithinContainer := Some 300%Q;
              imageHeightWithinContainer := Some 150%Q;
              imageWidth := 400; imageHeight := 200 |} _ eq_refl).
Defined.

Lemma renderImage_bounds_witness :
  (10 <= 10 * (400 / 200))%Q
  /\ (10 <= 10)%Q
  /\ (10 * (400 / 200) == 10 \/ 10 == 10)%Q
  /\ (10 * (400 / 200) * 200 == 10 * 400)%Q
  /\ (600 * 200 == 600 / (400 / 200) * 400)%Q.
Proof.
  apply (renderImage_bounds Undefined None None 600
           {| imageWidthWithinContainer := Some 300%Q;
              imageHeightWithinContainer := Some 150%Q;
              imageWidth := 400; imageHeight := 200 |}
           {| box_width := Some 300%Q; box_height := Some 150%Q;
              minWidth := 10 * (400 / 200); maxWidth := 600;
              minHeight := 10; maxHeight := 600 / (400 / 200) |});
    reflexivity.
Defined.
